(** * mtriage: the Analyser stage (src/lib/common/analyser.py)

    A shallow embedding of [Analyser] and of the properties its
    specification states about retries, skips, the [errored] flag, the
    destination query [dest_q], the local-cache flag and the metadata
    record.

    The analyser talks to three collaborators whose code lives outside
    analyser.py: the storage backend ([self.disk]), the hooks a concrete
    analyser overrides ([pre_analyse], [analyse_element], [post_analyse])
    and the base class [MTModule].  They are interfaces in the source and
    type classes here.  Everything those collaborators may read or change
    (files on disk, a loaded model, counters of the concrete analyser) is
    one abstract value, the world [W]; each call takes the current world
    and returns the next one, so a hook may answer differently on each
    attempt, as Python code can.  The hooks and the storage are taken to
    leave the analyser's own attributes alone ([errored], [dest_q], the
    name, the configuration) as well as [disk.delete_local_on_write]: only
    the methods below assign them.

    Every call that leaves the analyser is also appended to a trace, in
    call order; the properties are stated on that trace. *)

From Stdlib Require Import String Ascii List Bool Arith ZArith Lia.
Import ListNotations.
Local Open Scope string_scope.
Local Open Scope list_scope.

Set Implicit Arguments.

(** ** Elements, configuration, metadata *)

(** Modelled from the spec: [LocalElement] is declared in lib/common/etypes.py,
    which is not part of the sources at hand.  The analyser only reads
    [element.query]; the identifier stands for the rest of the element. *)
Record LocalElement := mkElement {
  el_id : string;
  query : string
}.

(** [self.config]: the analyser reads the key ["elements_in"]; [options]
    stands for every other key. *)
Record Config := mkConfig {
  elements_in : list string;
  options : list (string * string)
}.

(** The dictionary handed to [write_meta]. *)
Record Meta := mkMeta {
  meta_etype : string;
  meta_config : Config;
  meta_stage_name : string;
  meta_stage_module : string
}.

(** ** Exceptions and results *)

(** The exception classes [__attempt_analyse] and [__analyse] tell apart.
    The first three are the classes of lib/common/exceptions.py that
    analyser.py raises or catches (that file is not part of the sources at
    hand; its classes are taken to derive from [Exception]);
    [OtherException] is any other subclass of [Exception];
    [BaseExceptionOnly] is an exception outside
    [Exception] ([KeyboardInterrupt], [SystemExit], [GeneratorExit]), which
    a clause [except Exception] does not catch and a bare [except:] does.
    Each carries the argument it was built with. *)
Inductive exn :=
| ElementShouldSkipError (msg : string)
| ElementShouldRetryError (msg : string)
| InvalidAnalyserElements (msg : string)
| OtherException (msg : string)
| BaseExceptionOnly (msg : string).

(** [isinstance(e, Exception)] *)
Definition is_Exception (e : exn) : bool :=
  match e with
  | BaseExceptionOnly _ => false
  | _ => true
  end.

(** A call returns a value or raises. *)
Inductive res (A : Type) :=
| Ok (x : A)
| Raise (e : exn).
Arguments Ok {A} x.
Arguments Raise {A} e.

(** ** The trace of outgoing calls *)

Inductive event :=
| Logged (msg : string)                        (* self.logger(msg) *)
| PhaseEntered (key : string)                  (* a phase-decorated method starts *)
| LogsFlushed                                  (* self.flush_logs() *)
| PreAnalyseCalled                             (* self.pre_analyse(config) *)
| Attempted (el : LocalElement)                (* self.analyse_element(el, config) *)
| PostAnalyseCalled (els : list LocalElement)  (* self.post_analyse(els) *)
| DestSet (q : string)                         (* self.set_dest_q(q) *)
| ElementsRead (qs : list string)              (* self.disk.read_elements(qs) *)
| Written (dest : string) (el : LocalElement)
          (delete_local : bool) (r : res bool) (* self.disk.write_element(dest, el),
                                                  the flag at the time of the call
                                                  and what the call answered *)
| MetaWritten (path : string) (m : Meta)       (* self.disk.write_meta(path, m) *)
| ErrorLogged (msg : string) (el : LocalElement) (* self.error_logger(msg, el) *)
| TracebackPrinted.                            (* print(traceback.format_exc()) *)

(** ** The collaborators *)

(** [self.disk].  [read_query] is the base class's [Storage.read_query],
    the one the analyser reaches through [super(type(self.disk), self.disk)]:
    it splits a query into the selector name and the rest.  [write_element]
    also receives the value of [delete_local_on_write] at the time of the
    call, an attribute of the storage object that the analyser assigns. *)
Class Storage (W : Type) := {
  read_query : string -> string * list string;
  read_elements : list string -> W -> res (list LocalElement) * W;
  write_element : string -> LocalElement -> bool -> W -> res bool * W;
  write_meta : string -> Meta -> W -> res unit * W
}.

(** What a concrete analyser provides: the three hooks and [out_etype]
    (already rendered by [__repr__]). *)
Class Hooks (W : Type) := {
  pre_analyse : Config -> W -> res unit * W;
  analyse_element : LocalElement -> Config -> W -> res (option LocalElement) * W;
  post_analyse : list LocalElement -> W -> res (option LocalElement) * W;
  out_etype : string
}.

(** ** The analyser object *)

Record Analyser (W : Type) := mkAnalyser {
  name : string;                 (* self.name *)
  config : Config;               (* self.config *)
  in_parallel : bool;            (* self.in_parallel *)
  dev : bool;                    (* what self.is_dev() answers *)
  errored : bool;                (* self.errored *)
  dest_q : string;               (* self.dest_q, or self.dest_q.value *)
  delete_local_on_write : bool;  (* self.disk.delete_local_on_write *)
  world : W;
  trace : list event
}.

(** What the analyser uses of [MTModule] beyond attributes: [str(e)] of an
    exception, [get_full_config()], and the branch of the [phase] decorator
    that hands a generator of elements to a pool of worker processes.
    None of the three is in analyser.py; they are parameters. *)
Class MTModule (W : Type) := {
  exn_str : exn -> string;
  get_full_config : Config -> Config;
  run_in_pool :
    (list LocalElement -> Analyser W -> res unit * Analyser W) ->
    list LocalElement -> Analyser W -> res unit * Analyser W
}.

Section AnalyserModel.

Context {W : Type} `{Storage W} `{Hooks W} `{MTModule W}.

Abbreviation Self := (Analyser W).

(** *** Attribute updates *)

Definition with_errored (b : bool) (a : Self) : Self :=
  mkAnalyser (name a) (config a) (in_parallel a) (dev a) b (dest_q a)
             (delete_local_on_write a) (world a) (trace a).

Definition with_dest_q (q : string) (a : Self) : Self :=
  mkAnalyser (name a) (config a) (in_parallel a) (dev a) (errored a) q
             (delete_local_on_write a) (world a) (trace a).

Definition with_delete_local_on_write (b : bool) (a : Self) : Self :=
  mkAnalyser (name a) (config a) (in_parallel a) (dev a) (errored a) (dest_q a)
             b (world a) (trace a).

Definition with_world (w : W) (a : Self) : Self :=
  mkAnalyser (name a) (config a) (in_parallel a) (dev a) (errored a) (dest_q a)
             (delete_local_on_write a) w (trace a).

Definition with_event (ev : event) (a : Self) : Self :=
  mkAnalyser (name a) (config a) (in_parallel a) (dev a) (errored a) (dest_q a)
             (delete_local_on_write a) (world a) (trace a ++ [ev]).

(** *** Methods as state transformers that may raise

    A method maps the object before the call to its result and the object
    after the call.  Attributes assigned before an exception stay assigned. *)

Definition M (A : Type) : Type := Self -> res A * Self.

Definition ret {A} (x : A) : M A := fun a => (Ok x, a).

Definition raise {A} (e : exn) : M A := fun a => (Raise e, a).

Definition bind {A B} (m : M A) (k : A -> M B) : M B :=
  fun a => match m a with
           | (Ok x, a1) => k x a1
           | (Raise e, a1) => (Raise e, a1)
           end.

(** [try: m  except e: h e] *)
Definition try_except {A} (m : M A) (h : exn -> M A) : M A :=
  fun a => match m a with
           | (Ok x, a1) => (Ok x, a1)
           | (Raise e, a1) => h e a1
           end.

Definition get {A} (f : Self -> A) : M A := fun a => (Ok (f a), a).

Definition modify (f : Self -> Self) : M unit := fun a => (Ok tt, f a).

Definition emit (ev : event) : M unit := modify (with_event ev).

(** A call into the storage or into a hook: runs on the current world. *)
Definition call {A} (f : W -> res A * W) : M A :=
  fun a => let (r, w) := f (world a) in (r, with_world w a).

Notation "x <- m ;; k" := (bind m (fun x => k))
  (at level 61, m at next level, right associativity).
Notation "m ;; k" := (bind m (fun _ => k))
  (at level 61, right associativity).

(** *** Calls that are recorded *)

Definition logger (msg : string) : M unit := emit (Logged msg).

Definition error_logger (msg : string) (el : LocalElement) : M unit :=
  emit (ErrorLogged msg el).

Definition flush_logs : M unit := emit LogsFlushed.

Definition disk_read_elements (qs : list string) : M (list LocalElement) :=
  emit (ElementsRead qs) ;;
  call (read_elements qs).

Definition disk_write_element (dest : string) (el : LocalElement) : M bool :=
  fun a =>
    let flag := delete_local_on_write a in
    let (r, w) := write_element dest el flag (world a) in
    (r, with_event (Written dest el flag r) (with_world w a)).

Definition disk_write_meta (path : string) (m : Meta) : M unit :=
  emit (MetaWritten path m) ;;
  call (write_meta path m).

(** Modelled from the spec: the [phase] decorator of [MTModule] is not in
    analyser.py.  The spec (4.1) has a phase log its entry, run the wrapped
    method, and flush the logs when the method returns and also when it
    raises.  This is the branch that runs the method in the calling
    process. *)
Definition phase {A} (key : string) (body : M A) : M A :=
  fun a =>
    let (r, a1) := body (with_event (PhaseEntered key) a) in
    (r, with_event LogsFlushed a1).

(** *** get_dest_q, set_dest_q

    With [in_parallel] the attribute is a shared cell and the value is its
    [.value]; the field [dest_q] is that value in both cases. *)
Definition get_dest_q : M string := get (@dest_q W).

Definition set_dest_q (value : string) : M unit :=
  emit (DestSet value) ;;
  modify (with_dest_q value).

(** *** __attempt_analyse *)

Definition exhausted_msg : string :=
  "failed after maximum retries - skipping element".

Fixpoint __attempt_analyse (attempts : nat) (element : LocalElement) : M unit :=
  try_except
    (cfg <- get (@config W) ;;
     emit (Attempted element) ;;
     new_element <- call (analyse_element element cfg) ;;
     match new_element with
     | None => ret tt
     | Some new_el =>
         dest <- get_dest_q ;;
         success <- disk_write_element dest new_el ;;
         if success : bool then ret tt
         else raise (ElementShouldRetryError "Unsuccessful storage")
     end)
    (fun e =>
       match e with
       | ElementShouldSkipError _ =>
           error_logger (exn_str e) element
       | ElementShouldRetryError _ =>
           error_logger (exn_str e) element ;;
           match attempts with
           | S (S _ as fewer) =>            (* attempts > 1 *)
               __attempt_analyse fewer element
           | _ =>
               error_logger exhausted_msg element ;;
               modify (with_errored true)
           end
       | InvalidAnalyserElements _ | OtherException _ =>   (* except Exception *)
           is_dev <- get (@dev W) ;;
           if is_dev : bool then raise e
           else
             error_logger (exn_str e ++ ": skipping element") element ;;
             emit TracebackPrinted
       | BaseExceptionOnly _ => raise e    (* no clause applies: it propagates *)
       end).

(** The [try] block of [__attempt_analyse] on its own, and what the
    [except ElementShouldRetryError] clause does once the reason is logged;
    the proofs go through them. *)
Definition attempt_body (element : LocalElement) : M unit :=
  cfg <- get (@config W) ;;
  emit (Attempted element) ;;
  new_element <- call (analyse_element element cfg) ;;
  match new_element with
  | None => ret tt
  | Some new_el =>
      dest <- get_dest_q ;;
      success <- disk_write_element dest new_el ;;
      if success : bool then ret tt
      else raise (ElementShouldRetryError "Unsuccessful storage")
  end.

Definition retry_or_give_up (attempts : nat) (element : LocalElement) : M unit :=
  match attempts with
  | S (S _ as fewer) => __attempt_analyse fewer element
  | _ => error_logger exhausted_msg element ;; modify (with_errored true)
  end.

(** *** analyse: the loop over the elements *)

Definition dest_of (stage : string) (el : LocalElement) : string :=
  fst (read_query (query el)) ++ "/" ++ stage.

Definition analyse_one (element : LocalElement) : M unit :=
  stage <- get (@name W) ;;
  set_dest_q (dest_of stage element) ;;
  __attempt_analyse 5 element ;;
  modify (with_delete_local_on_write false).

Fixpoint analyse_loop (elements : list LocalElement) : M unit :=
  match elements with
  | [] => ret tt
  | element :: rest => analyse_one element ;; analyse_loop rest
  end.

(** The decorated method.  A list is run here, in the calling process; a
    generator goes to the pool when [in_parallel] is set. *)
Definition analyse (as_generator : bool) (elements : list LocalElement) : M unit :=
  fun a =>
    if as_generator && in_parallel a
    then run_in_pool analyse_loop elements a
    else phase "analyse" (analyse_loop elements) a.

(** *** get_selector *)

Fixpoint concat_selectors (qs : list string) (sel : string) : string :=
  match qs with
  | [] => sel
  | q :: rest => concat_selectors rest (sel ++ fst (read_query q))
  end.

Definition get_selector (a : Self) : string :=
  concat_selectors (elements_in (config a)) "".

(** *** The three phases *)

Definition __pre_analyse : M unit :=
  phase "pre-analyse"
    (cfg <- get (@config W) ;;
     emit PreAnalyseCalled ;;
     call (pre_analyse cfg)).

Definition no_elements_in_msg : string :=
  "The 'elements_in' you specified does not exist on the storage specified.".

Definition no_elements_msg : string :=
  "No elements could be found at the location you tried to select or passed in.".

Definition __analyse : M unit :=
  cfg <- get (@config W) ;;
  elements <- try_except
                (disk_read_elements (elements_in cfg))
                (fun _ => raise (InvalidAnalyserElements no_elements_in_msg)) ;;
  match elements with
  | [] => raise (InvalidAnalyserElements no_elements_msg)
  | _ =>
      par <- get (@in_parallel W) ;;
      if par : bool then analyse true elements
      else analyse false elements
  end.

(** The loop of [__post_analyse] that writes the aggregate element under
    every input selector and collects the answers. *)
Fixpoint write_aggregate (qs : list string) (outel : LocalElement) : M (list bool) :=
  match qs with
  | [] => ret []
  | q :: rest =>
      stage <- get (@name W) ;;
      success <- disk_write_element (fst (read_query q) ++ "/" ++ stage) outel ;;
      successes <- write_aggregate rest outel ;;
      ret (success :: successes)
  end.

Definition post_write_failed_msg : string :=
  "Some instances of the final element produced via 'post_analyse' failed to save.".

Definition __post_analyse : M unit :=
  phase "post-analyse"
    (dest <- get_dest_q ;;
     analysed_els <- disk_read_elements [dest] ;;
     emit (PostAnalyseCalled analysed_els) ;;
     outel <- call (post_analyse analysed_els) ;;
     match outel with
     | None => ret tt
     | Some outel =>
         cfg <- get (@config W) ;;
         successes <- write_aggregate (elements_in cfg) outel ;;
         if forallb (fun b => b) successes then ret tt
         else raise (ElementShouldRetryError post_write_failed_msg)
     end).

(** *** start_analysing *)

Definition meta_path (a : Self) : string :=
  get_selector a ++ "/" ++ name a.

Definition meta_record (a : Self) : Meta :=
  mkMeta out_etype (get_full_config (config a)) (name a) "analyser".

Definition start_analysing : M unit :=
  par <- get (@in_parallel W) ;;
  logger ("Running analysis " ++ (if par : bool then "in parallel" else "serially")) ;;
  __pre_analyse ;;
  __analyse ;;
  __post_analyse ;;
  err <- get (@errored W) ;;
  (if err : bool then ret tt
   else
     path <- get meta_path ;;
     m <- get meta_record ;;
     disk_write_meta path m) ;;
  flush_logs.

End AnalyserModel.

(** * Reading a trace *)

(** The elements handed to [analyse_element], in call order. *)
Fixpoint attempts_in (evs : list event) : list LocalElement :=
  match evs with
  | [] => []
  | Attempted el :: rest => el :: attempts_in rest
  | _ :: rest => attempts_in rest
  end.

(** The calls of [write_element] that answered [True]: destination and
    element, in call order. *)
Fixpoint persisted_in (evs : list event) : list (string * LocalElement) :=
  match evs with
  | [] => []
  | Written dest el _ (Ok true) :: rest => (dest, el) :: persisted_in rest
  | _ :: rest => persisted_in rest
  end.

(** Every call of [write_element], whatever it answered: destination,
    element and the value of [delete_local_on_write] during the call. *)
Fixpoint writes_in (evs : list event) : list (string * LocalElement * bool) :=
  match evs with
  | [] => []
  | Written dest el flag _ :: rest => (dest, el, flag) :: writes_in rest
  | _ :: rest => writes_in rest
  end.

(** The paths handed to [write_meta]. *)
Fixpoint metas_in (evs : list event) : list string :=
  match evs with
  | [] => []
  | MetaWritten path _ :: rest => path :: metas_in rest
  | _ :: rest => metas_in rest
  end.

(** The values assigned to [dest_q]. *)
Fixpoint dests_in (evs : list event) : list string :=
  match evs with
  | [] => []
  | DestSet q :: rest => q :: dests_in rest
  | _ :: rest => dests_in rest
  end.

(** The query lists handed to [read_elements]. *)
Fixpoint reads_in (evs : list event) : list (list string) :=
  match evs with
  | [] => []
  | ElementsRead qs :: rest => qs :: reads_in rest
  | _ :: rest => reads_in rest
  end.

(** The messages handed to [error_logger]. *)
Fixpoint errors_in (evs : list event) : list (string * LocalElement) :=
  match evs with
  | [] => []
  | ErrorLogged msg el :: rest => (msg, el) :: errors_in rest
  | _ :: rest => errors_in rest
  end.

(** * What the collaborators do on one element

    The hypotheses of the properties below: they speak of the hooks and of
    the storage only, at the worlds the attempts go through. *)

Section Behaviours.

Context {W : Type} `{Storage W} `{Hooks W}.

(** One attempt that calls for a retry: from world [w] the hook raises
    should-retry, or it returns a new element and [write_element] answers
    [False]; [w'] is the world after the attempt. *)
Definition attempt_fails (el : LocalElement) (cfg : Config)
    (dest : string) (flag : bool) (w w' : W) : Prop :=
  (exists m, analyse_element el cfg w = (Raise (ElementShouldRetryError m), w')) \/
  (exists new_el w1,
      analyse_element el cfg w = (Ok (Some new_el), w1) /\
      write_element dest new_el flag w1 = (Ok false, w')).

(** [n] attempts in a row, starting from [w], each calling for a retry. *)
Fixpoint fails_on_each_of (n : nat) (el : LocalElement) (cfg : Config)
    (dest : string) (flag : bool) (w : W) : Prop :=
  match n with
  | 0 => True
  | S k => exists w', attempt_fails el cfg dest flag w w' /\
                      fails_on_each_of k el cfg dest flag w'
  end.

(** The element calls for a retry whatever the world, destination and flag. *)
Definition always_fails (el : LocalElement) (cfg : Config) : Prop :=
  forall dest flag w, exists w', attempt_fails el cfg dest flag w w'.

(** The hook raises should-retry on [k] calls in a row, taking the world
    from [w] to [w']. *)
Fixpoint raises_retry_times (k : nat) (el : LocalElement) (cfg : Config)
    (w w' : W) : Prop :=
  match k with
  | 0 => w' = w
  | S j => exists m w1,
      analyse_element el cfg w = (Raise (ElementShouldRetryError m), w1) /\
      raises_retry_times j el cfg w1 w'
  end.

(** An exception that is neither should-skip nor should-retry. *)
Definition unclassified (e : exn) : Prop :=
  match e with
  | ElementShouldSkipError _ | ElementShouldRetryError _ => False
  | _ => True
  end.

End Behaviours.

(** What stays put while one element is attempted: [__attempt_analyse]
    assigns neither the name, the configuration, the mode, the destination
    nor the local-cache flag. *)
Definition same_settings {W : Type} (a a' : Analyser W) : Prop :=
  name a' = name a /\ config a' = config a /\ in_parallel a' = in_parallel a /\
  dev a' = dev a /\ dest_q a' = dest_q a /\
  delete_local_on_write a' = delete_local_on_write a.

(** What no method of the analyser assigns. *)
Definition same_identity {W : Type} (a a' : Analyser W) : Prop :=
  name a' = name a /\ config a' = config a /\ in_parallel a' = in_parallel a /\
  dev a' = dev a.

(** * Footprints: what each part of a run adds to the trace *)

(** What the attempts on one element may add to the trace: calls of the
    hook on that element, and writes to the destination and under the flag
    in force; no assignment of [dest_q], no read, no metadata. *)
Definition attempt_events (el : LocalElement) (dest : string) (flag : bool)
    (evs : list event) : Prop :=
  Forall (eq el) (attempts_in evs) /\
  Forall (fun x => fst (fst x) = dest /\ snd x = flag) (writes_in evs) /\
  dests_in evs = [] /\ metas_in evs = [] /\ reads_in evs = [].

(** The shape of the trace of a loop that ran to its end: one segment per
    element, in order; each segment starts with the assignment of [dest_q]
    computed from that element's query, followed by the attempts on that
    element, which write under that destination only.  The first segment
    runs under the local-cache flag the loop was entered with, every later
    one under [false]. *)
Fixpoint turns (dest_of_el : LocalElement -> string) (flag : bool)
    (els : list LocalElement) (evs : list event) : Prop :=
  match els with
  | [] => evs = []
  | el :: rest =>
      exists seg evs',
        evs = DestSet (dest_of_el el) :: seg ++ evs' /\
        attempt_events el (dest_of_el el) flag seg /\
        turns dest_of_el false rest evs'
  end.

Section Footprints.

Context {W : Type} `{Storage W} `{Hooks W} `{MTModule W}.

(** The object after the hook was called on [el] and left the world [w]. *)
Definition after_call (el : LocalElement) (w : W) (a : Analyser W) : Analyser W :=
  with_world w (with_event (Attempted el) a).

(** The object after the hook's element [new_el] was handed to
    [write_element], which answered [r] and left the world [w]. *)
Definition after_write (el new_el : LocalElement) (r : res bool) (w : W)
    (a : Analyser W) : Analyser W :=
  with_event (Written (dest_q a) new_el (delete_local_on_write a) r)
    (with_world w (with_event (Attempted el) a)).

(** What one attempt that calls for a retry adds to the trace, from the
    world [w] to the world [w']: the hook raises should-retry, or it
    returns a new element and [write_element] answers [False]; either way
    the reason is logged. *)
Definition retry_round (el : LocalElement) (cfg : Config) (dest : string)
    (flag : bool) (w : W) (evs : list event) (w' : W) : Prop :=
  (exists m,
      analyse_element el cfg w = (Raise (ElementShouldRetryError m), w') /\
      evs = [Attempted el; ErrorLogged (exn_str (ElementShouldRetryError m)) el]) \/
  (exists new_el w1,
      analyse_element el cfg w = (Ok (Some new_el), w1) /\
      write_element dest new_el flag w1 = (Ok false, w') /\
      evs = [Attempted el; Written dest new_el flag (Ok false);
             ErrorLogged
               (exn_str (ElementShouldRetryError "Unsuccessful storage")) el]).

(** [k] such attempts in a row, from [w] to [w'], and all they add to the
    trace. *)
Fixpoint retry_rounds (k : nat) (el : LocalElement) (cfg : Config)
    (dest : string) (flag : bool) (w : W) (evs : list event) (w' : W) : Prop :=
  match k with
  | 0 => evs = [] /\ w' = w
  | S j => exists round w1 evs',
      retry_round el cfg dest flag w round w1 /\
      retry_rounds j el cfg dest flag w1 evs' w' /\
      evs = round ++ evs'
  end.

(** The selector name of a query, as [read_query] gives it. *)
Definition selector_of (q : string) : string := fst (read_query q).

(** The message [start_analysing] logs first. *)
Definition mode_msg (a : Analyser W) : string :=
  "Running analysis " ++ (if in_parallel a then "in parallel" else "serially").

(** What the post phase may add to the trace: its one read, under the
    destination in force, and the writes of the aggregate element, one per
    input query, under that query's selector. *)
Definition aggregate_writes (stage : string) (qs : list string)
    (evs : list event) : Prop :=
  attempts_in evs = [] /\ metas_in evs = [] /\ dests_in evs = [] /\
  Forall (fun w => exists q, In q qs /\
                   fst (fst w) = (fst (read_query q) ++ "/" ++ stage)%string)
         (writes_in evs).

(** The events of a serial run before the loop starts. *)
Definition prologue (a : Analyser W) : list event :=
  [Logged (mode_msg a); PhaseEntered "pre-analyse"; PreAnalyseCalled;
   LogsFlushed; ElementsRead (elements_in (config a)); PhaseEntered "analyse"].

(** The events of a run after the post phase: the metadata record unless
    [errored] is set, then the last flush. *)
Definition epilogue (a a' : Analyser W) : list event :=
  (if errored a' then [] else [MetaWritten (meta_path a) (meta_record a)])
  ++ [LogsFlushed].

(** The analyser of a serial run at the moment the loop of [analyse]
    starts: [w1] is the world the pre phase left, [w2] the world after the
    input elements were read. *)
Definition main_entry (a : Analyser W) (w1 w2 : W) : Analyser W :=
  with_event (PhaseEntered "analyse")
    (with_world w2
       (with_event (ElementsRead (elements_in (config a)))
          (with_event LogsFlushed
             (with_world w1
                (with_event PreAnalyseCalled
                   (with_event (PhaseEntered "pre-analyse")
                      (with_event (Logged (mode_msg a)) a))))))).

End Footprints.

(** * Statements of the specification that the code does not meet *)

Section AsStated.

Context {W : Type} `{Storage W} `{Hooks W} `{MTModule W}.

(** C2 as the specification words it: a run that returned and persisted
    at least one element has written its metadata record, whether or not
    an element exhausted its retries. *)
Definition partial_success_writes_metadata (a : Analyser W) : Prop :=
  forall a' evs,
    start_analysing a = (Ok tt, a') -> trace a' = trace a ++ evs ->
    persisted_in evs <> [] -> metas_in evs <> [].

(** C3 as the specification words it: in a batch, every write but the
    last happens under the flag the batch was entered with, the last one
    under [false], and the flag has its former value after the batch. *)
Definition flag_cleared_for_last_write_only
    (a : Analyser W) (els : list LocalElement) : Prop :=
  forall a' evs,
    analyse_loop els a = (Ok tt, a') -> trace a' = trace a ++ evs ->
    let flags := map snd (writes_in evs) in
    Forall (eq (delete_local_on_write a)) (removelast flags) /\
    last flags false = false /\
    delete_local_on_write a' = delete_local_on_write a.

(** C4 as the specification words it: the batch assigns [dest_q] once,
    before anything else, and every write of the batch goes there. *)
Definition dest_q_written_once_per_run
    (a : Analyser W) (els : list LocalElement) : Prop :=
  forall a' evs,
    analyse_loop els a = (Ok tt, a') -> trace a' = trace a ++ evs ->
    exists d rest,
      evs = DestSet d :: rest /\ dests_in rest = [] /\
      Forall (fun w => fst (fst w) = d) (writes_in rest).

(** The part of C8 that fails, as the specification words it: outside
    development mode, whatever exception the hook raises on an element,
    other than should-skip and should-retry, the message is logged, the
    turn of the loop for that element returns and the loop goes on with
    the next element. *)
Definition unclassified_never_stops_production
    (a : Analyser W) (el : LocalElement) (rest : list LocalElement) : Prop :=
  forall e w',
    unclassified e -> dev a = false ->
    analyse_element el (config a) (world a) = (Raise e, w') ->
    exists a',
      analyse_one el a = (Ok tt, a') /\
      In ((exn_str e ++ ": skipping element")%string, el) (errors_in (trace a')) /\
      analyse_loop (el :: rest) a = analyse_loop rest a'.


End AsStated.

(** * A concrete storage and a concrete analyser

    A small in-memory backend and an analyser whose hook behaves according
    to the identifier of the element; the properties are exercised on it. *)

Module Demo.

(** Modelled from the spec: [Storage.read_query] is defined in
    lib/common/storage.py, which is not part of the sources at hand.  The
    spec (3, Query) has the first segment of the path name the selector
    and the remaining segments the stages applied since. *)
Fixpoint segments (q : string) : list string :=
  match q with
  | EmptyString => [EmptyString]
  | String c rest =>
      if Ascii.eqb c "/"%char then EmptyString :: segments rest
      else match segments rest with
           | [] => [String c EmptyString]
           | s :: ss => String c s :: ss
           end
  end.

Definition split_query (q : string) : string * list string :=
  match segments q with
  | [] => (EmptyString, [])
  | s :: ss => (s, ss)
  end.

(** The world: how often the hook was called, and what is stored where. *)
Record World := mkWorld {
  calls : nat;
  stored : list (string * LocalElement)
}.

Definition under (q : string) (w : World) : list LocalElement :=
  map snd (filter (fun p => String.eqb (fst p) q) (stored w)).

Definition demo_read_elements (qs : list string) (w : World)
    : res (list LocalElement) * World :=
  if existsb (String.eqb "corrupted") qs
  then (Raise (OtherException "storage corrupted"), w)
  else (Ok (flat_map (fun q => under q w) qs), w).

Definition demo_write_element (dest : string) (el : LocalElement)
    (delete_local : bool) (w : World) : res bool * World :=
  if String.eqb (el_id el) "unwritable" then (Ok false, w)
  else (Ok true, mkWorld (calls w) (stored w ++ [(dest, el)])).

Definition demo_write_meta (path : string) (m : Meta) (w : World)
    : res unit * World := (Ok tt, w).

#[global] Instance memory_storage : Storage World := {
  read_query := split_query;
  read_elements := demo_read_elements;
  write_element := demo_write_element;
  write_meta := demo_write_meta
}.

Definition derived (el : LocalElement) : LocalElement :=
  mkElement (el_id el ++ ".out") (query el).

Definition demo_analyse_element (el : LocalElement) (cfg : Config) (w : World)
    : res (option LocalElement) * World :=
  let w' := mkWorld (S (calls w)) (stored w) in
  if String.eqb (el_id el) "skip" then (Raise (ElementShouldSkipError "not a video"), w')
  else if String.eqb (el_id el) "bad" then (Raise (ElementShouldRetryError "timeout"), w')
  else if String.eqb (el_id el) "flaky" then
    if Nat.ltb (calls w) 2 then (Raise (ElementShouldRetryError "timeout"), w')
    else (Ok (Some (derived el)), w')
  else if String.eqb (el_id el) "boom" then (Raise (OtherException "division by zero"), w')
  else if String.eqb (el_id el) "none" then (Ok None, w')
  else if String.eqb (el_id el) "unwritable" then (Ok (Some el), w')
  else (Ok (Some (derived el)), w').

#[global] Instance demo_hooks : Hooks World := {
  pre_analyse := fun _ w => (Ok tt, w);
  analyse_element := demo_analyse_element;
  post_analyse := fun _ w => (Ok None, w);
  out_etype := "Any"
}.

(** The pool is never entered below: every run here is serial. *)
#[global] Instance demo_module : MTModule World := {
  exn_str := fun e =>
    match e with
    | ElementShouldSkipError m | ElementShouldRetryError m
    | InvalidAnalyserElements m | OtherException m
    | BaseExceptionOnly m => m
    end;
  get_full_config := fun cfg => cfg;
  run_in_pool := fun f els a => f els a
}.

(** A freshly constructed serial analyser called "frames" over a storage
    holding [content], with the local-cache flag set. *)
Definition fresh (qs : list string) (is_dev : bool)
    (content : list (string * LocalElement)) : Analyser World :=
  mkAnalyser "frames" (mkConfig qs []) false is_dev false "" true
             (mkWorld 0 content) [].

Definition el (i q : string) : LocalElement := mkElement i q.

(** One selector, three elements: two are transformed, one is skipped. *)
Definition three_under_selA : list (string * LocalElement) :=
  [("selA", el "v1" "selA"); ("selA", el "skip" "selA"); ("selA", el "v3" "selA")].

(** One selector, three elements, all transformed. *)
Definition three_good : list (string * LocalElement) :=
  [("selA", el "v1" "selA"); ("selA", el "v2" "selA"); ("selA", el "v3" "selA")].

(** Two selectors, one element each. *)
Definition two_selectors : list (string * LocalElement) :=
  [("selA", el "v1" "selA"); ("selB", el "v2" "selB")].

(** One element that is stored and one that calls for a retry every time. *)
Definition good_and_bad : list (string * LocalElement) :=
  [("selA", el "v1" "selA"); ("selA", el "bad" "selA")].

End Demo.

Unset Implicit Arguments.

(** Unfolds the operations on methods. *)
Ltac run :=
  unfold attempt_body, retry_or_give_up, bind, try_except, get, get_dest_q,
         modify, emit, error_logger, call, ret, raise, disk_write_element;
  simpl.

(** * More of analyser.py and of commands.py *)

(** ** What the hooks and the storage may be known to do *)

Section MoreBehaviours.

Context {W : Type} `{Storage W} `{Hooks W}.


(** [write_element] answers [True] or [False] for this element, it never
    raises. *)
Definition write_never_raises (outel : LocalElement) : Prop :=
  forall dest flag (w : W), exists b w',
    write_element dest outel flag w = (Ok b, w').

(** The hook [post_analyse] raises whatever it is given. *)
Definition post_hook_always_raises : Prop :=
  forall els (w : W), exists e w', post_analyse els w = (Raise e, w').

(** [read_elements] answers elements that carry one of the queries it was
    asked for. *)
Definition answers_what_was_asked : Prop :=
  forall qs (w : W) els w',
    read_elements qs w = (Ok els, w') -> Forall (fun x => In (query x) qs) els.

End MoreBehaviours.

(** Between two moments of a run, [write_meta] was not called. *)
Definition adds_no_metadata {W : Type} (a a' : Analyser W) : Prop :=
  exists evs, trace a' = trace a ++ evs /\ metas_in evs = [].

(** ** Analyser.__init__

    The arguments are Python values of any type; the checks only look at
    the type of a value and at whether it is empty. *)
#[warnings="-register-all"]
Inductive pyvalue :=
| PyNone
| PyBool (b : bool)
| PyInt (z : Z)
| PyStr (s : string)
| PyList (items : list pyvalue)
| PyDict (keys : list string)
| PyObject (truth : bool).         (* any other object, with its bool(...) *)

(** [bool(v)] *)
Definition truthy (v : pyvalue) : bool :=
  match v with
  | PyNone => false
  | PyBool b => b
  | PyInt z => negb (Z.eqb z 0)
  | PyStr s => negb (String.eqb s EmptyString)
  | PyList items => match items with [] => false | _ => true end
  | PyDict keys => match keys with [] => false | _ => true end
  | PyObject truth => truth
  end.

Definition is_str (v : pyvalue) : bool :=
  match v with PyStr _ => true | _ => false end.

Definition is_list (v : pyvalue) : bool :=
  match v with PyList _ => true | _ => false end.

(** [module == ""] *)
Definition equals_empty_str (v : pyvalue) : bool :=
  match v with PyStr s => String.eqb s EmptyString | _ => false end.

Inductive init_error :=
| InvalidAnalyserConfigError (msg : string).

(** The checks of [__init__], which run once [MTModule.__init__] has
    returned.  [config] is a dictionary, given by its lookup; [storage_ok]
    is [isinstance(storage, Storage)].  The answer is the exception raised,
    or [None] when the object is constructed. *)
Definition __init__ (config : string -> option pyvalue) (module : pyvalue)
    (storage_ok : bool) : option init_error :=
  if negb (is_str module) || equals_empty_str module then
    Some (InvalidAnalyserConfigError "You must provide a name for your analyser")
  else if negb storage_ok then
    Some (InvalidAnalyserConfigError "You must provide a valid storage object")
  else
    match config "elements_in" with
    | None =>
        Some (InvalidAnalyserConfigError
                "The config must contain an 'elements_in' indicating the analyser's input.")
    | Some elements_in =>
        if negb (truthy elements_in) || negb (is_list elements_in) then
          Some (InvalidAnalyserConfigError
                  "The 'elements_in' must be a list containing at least one string")
        else None
    end.

(** ** commands.py: which selectors and analysers a build includes

    The part of [build] between the listing of the component folders and
    the writing of the build files.  [extract_dep] is a helper of util.py,
    which is not part of the sources at hand: it is a parameter.  A
    whitelist or blacklist is the list of rows [csv.reader] yields from the
    file named by the argument, or [None] when the argument is absent or
    falsy. *)
Module Commands.

(** A Python [str] is held here as its UTF-8 encoding.  [len(x)] counts
    code points: every byte but the continuation bytes (0x80 to 0xBF) of a
    multi-byte sequence starts one. *)
Definition is_continuation_byte (c : ascii) : bool :=
  Nat.leb 128 (nat_of_ascii c) && Nat.ltb (nat_of_ascii c) 192.

Fixpoint len (x : string) : nat :=
  match x with
  | EmptyString => 0
  | String c rest => (if is_continuation_byte c then 0 else 1) + len rest
  end.

Section Build.

Variable extract_dep : list string -> string.

(** [l.remove(x)]: the list without the first [x]; [None] is the
    ValueError Python raises when [x] is not in the list. *)
Fixpoint list_remove (x : string) (l : list string) : option (list string) :=
  match l with
  | [] => None
  | y :: rest =>
      if String.eqb y x then Some rest
      else match list_remove x rest with
           | Some rest' => Some (y :: rest')
           | None => None
           end
  end.

Inductive build_error :=
| ValueError (not_in_list : string).

(** The loop over the rows of the whitelist. *)
Fixpoint remove_whitelisted (rows : list (list string)) (BLACKLIST : list string)
    : build_error + list string :=
  match rows with
  | [] => inr BLACKLIST
  | row :: rest =>
      let dep := extract_dep row in
      if String.eqb dep EmptyString then remove_whitelisted rest BLACKLIST
      else match list_remove dep BLACKLIST with
           | None => inl (ValueError dep)
           | Some BLACKLIST' => remove_whitelisted rest BLACKLIST'
           end
  end.

(** The value of [BLACKLIST] when the loops over the components start. *)
Definition build_blacklist (whitelist blacklist : option (list (list string)))
    (selectors analysers : list string) : build_error + list string :=
  match whitelist, blacklist with
  | None, Some rows =>
      inr (filter (fun x => Nat.ltb 1 (len x)) (map extract_dep rows))
  | Some rows, _ => remove_whitelisted rows (selectors ++ analysers)
  | None, None => inr []
  end.

(** [name in BLACKLIST] *)
Definition blacklisted (BLACKLIST : list string) (name : string) : bool :=
  existsb (String.eqb name) BLACKLIST.

(** The components whose partial files are added: the loop skips the
    blacklisted ones. *)
Definition included (names BLACKLIST : list string) : list string :=
  filter (fun name => negb (blacklisted BLACKLIST name)) names.

(** The non-empty names the rows of a whitelist give. *)
Definition whitelisted (rows : list (list string)) : list string :=
  filter (fun dep => negb (String.eqb dep EmptyString)) (map extract_dep rows).

End Build.

(** A stand-in for [extract_dep] on which the properties are exercised:
    the first field of the row. *)
Definition first_field (row : list string) : string :=
  match row with
  | [] => EmptyString
  | field :: _ => field
  end.

(** The one-letter name U+00E9 (e with an acute accent): two bytes, one
    code point. *)
Definition e_acute : string :=
  String (ascii_of_nat 195) (String (ascii_of_nat 169) EmptyString).

End Commands.

(** ** A second concrete analyser: it skips or declines every element and
    produces an aggregate in the post phase

    Its instances, and those of the third analyser, come after those of
    the first one in the search: a term that does not name its world is
    about the first analyser. *)

Module Shelf.

(** The world: how often the hook was called, and what was written. *)
Record World := mkWorld {
  calls : nat;
  written : list (string * LocalElement)
}.

(** Two elements under "selA", one under "selB", whatever was written. *)
Definition shelf_read_elements (qs : list string) (w : World)
    : res (list LocalElement) * World :=
  (Ok (flat_map (fun q =>
         if String.eqb q "selA" then [mkElement "v1" "selA"; mkElement "v2" "selA"]
         else if String.eqb q "selB" then [mkElement "v3" "selB"]
         else []) qs), w).

(** Writes under "selB/frames" are refused. *)
Definition shelf_write_element (dest : string) (el : LocalElement)
    (delete_local : bool) (w : World) : res bool * World :=
  if String.eqb dest "selB/frames" then (Ok false, w)
  else (Ok true, mkWorld (calls w) (written w ++ [(dest, el)])).

#[global] Instance shelf_storage : Storage World | 10 := {
  read_query := Demo.split_query;
  read_elements := shelf_read_elements;
  write_element := shelf_write_element;
  write_meta := fun _ _ w => (Ok tt, w)
}.

Definition summary : LocalElement := mkElement "summary" "selA".

(** The hook skips on its even calls and declines on its odd ones. *)
#[global] Instance shelf_hooks : Hooks World | 10 := {
  pre_analyse := fun _ w => (Ok tt, w);
  analyse_element := fun el _ w =>
    let w' := mkWorld (S (calls w)) (written w) in
    if Nat.even (calls w) then (Raise (ElementShouldSkipError "nothing to see"), w')
    else (Ok None, w');
  post_analyse := fun _ w => (Ok (Some summary), w);
  out_etype := "Any"
}.

#[global] Instance shelf_module : MTModule World | 10 := {
  exn_str := fun e =>
    match e with
    | ElementShouldSkipError m | ElementShouldRetryError m
    | InvalidAnalyserElements m | OtherException m
    | BaseExceptionOnly m => m
    end;
  get_full_config := fun cfg => cfg;
  run_in_pool := fun f els a => f els a
}.

Definition fresh (qs : list string) : Analyser World :=
  mkAnalyser "frames" (mkConfig qs []) false false false "" true
             (mkWorld 0 []) [].

End Shelf.

(** ** A third one, whose post hook raises *)

Module Broken.

Record World := mkWorld { shelf : Shelf.World }.

Definition lift {A : Type} (f : Shelf.World -> res A * Shelf.World) (w : World)
    : res A * World :=
  let (r, s) := f (shelf w) in (r, mkWorld s).

#[global] Instance broken_storage : Storage World | 10 := {
  read_query := Demo.split_query;
  read_elements := fun qs => lift (Shelf.shelf_read_elements qs);
  write_element := fun dest el flag => lift (Shelf.shelf_write_element dest el flag);
  write_meta := fun _ _ w => (Ok tt, w)
}.

(** The pre hook fails when the configuration names the query
    "unprepared". *)
#[global] Instance broken_hooks : Hooks World | 10 := {
  pre_analyse := fun cfg w =>
    if existsb (String.eqb "unprepared") (elements_in cfg)
    then (Raise (OtherException "cannot load the model"), w)
    else (Ok tt, w);
  analyse_element := fun el _ w => (Ok None, w);
  post_analyse := fun _ w => (Raise (OtherException "no model loaded"), w);
  out_etype := "Any"
}.

#[global] Instance broken_module : MTModule World | 10 := {
  exn_str := fun e =>
    match e with
    | ElementShouldSkipError m | ElementShouldRetryError m
    | InvalidAnalyserElements m | OtherException m
    | BaseExceptionOnly m => m
    end;
  get_full_config := fun cfg => cfg;
  run_in_pool := fun f els a => f els a
}.

Definition fresh (qs : list string) : Analyser World :=
  mkAnalyser "frames" (mkConfig qs []) false false false "" true
             (mkWorld (Shelf.mkWorld 0 [])) [].

End Broken.

(** ** A fourth one, whose hook raises exceptions of its own *)

Module Stormy.

(** The world: how often the hook was called, and what is stored where. *)
Record World := mkWorld {
  calls : nat;
  stored : list (string * LocalElement)
}.

Definition stormy_read_elements (qs : list string) (w : World)
    : res (list LocalElement) * World :=
  (Ok (flat_map (fun q =>
         map snd (filter (fun p => String.eqb (fst p) q) (stored w))) qs), w).

Definition stormy_write_element (dest : string) (el : LocalElement)
    (delete_local : bool) (w : World) : res bool * World :=
  (Ok true, mkWorld (calls w) (stored w ++ [(dest, el)])).

#[global] Instance stormy_storage : Storage World | 10 := {
  read_query := Demo.split_query;
  read_elements := stormy_read_elements;
  write_element := stormy_write_element;
  write_meta := fun _ _ w => (Ok tt, w)
}.

(** On the element "late" the hook times out while it has been called
    fewer than twice, then divides by zero; on "interrupt" the user
    interrupts it; any other element is transformed. *)
Definition stormy_analyse_element (el : LocalElement) (cfg : Config) (w : World)
    : res (option LocalElement) * World :=
  let w' := mkWorld (S (calls w)) (stored w) in
  if String.eqb (el_id el) "late" then
    if Nat.ltb (calls w) 2 then (Raise (ElementShouldRetryError "timeout"), w')
    else (Raise (OtherException "division by zero"), w')
  else if String.eqb (el_id el) "interrupt" then
    (Raise (BaseExceptionOnly "KeyboardInterrupt"), w')
  else (Ok (Some (Demo.derived el)), w').

#[global] Instance stormy_hooks : Hooks World | 10 := {
  pre_analyse := fun _ w => (Ok tt, w);
  analyse_element := stormy_analyse_element;
  post_analyse := fun _ w => (Ok None, w);
  out_etype := "Any"
}.

#[global] Instance stormy_module : MTModule World | 10 := {
  exn_str := fun e =>
    match e with
    | ElementShouldSkipError m | ElementShouldRetryError m
    | InvalidAnalyserElements m | OtherException m
    | BaseExceptionOnly m => m
    end;
  get_full_config := fun cfg => cfg;
  run_in_pool := fun f els a => f els a
}.

(** A freshly constructed serial analyser called "frames" over a storage
    holding [content], with the local-cache flag set. *)
Definition fresh (qs : list string) (is_dev : bool)
    (content : list (string * LocalElement)) : Analyser World :=
  mkAnalyser "frames" (mkConfig qs []) false is_dev false "" true
             (mkWorld 0 content) [].

Definition v1 : LocalElement := mkElement "v1" "selA".
Definition late : LocalElement := mkElement "late" "selA".
Definition interrupt : LocalElement := mkElement "interrupt" "selA".
Definition v3 : LocalElement := mkElement "v3" "selA".

(** One selector, three elements, the second of which divides by zero at
    its second attempt. *)
Definition late_in_the_middle : list (string * LocalElement) :=
  [("selA", v1); ("selA", late); ("selA", v3)].

(** One selector, three elements, the second of which is interrupted. *)
Definition interrupt_in_the_middle : list (string * LocalElement) :=
  [("selA", v1); ("selA", interrupt); ("selA", v3)].

End Stormy.

(** * Lemmas on traces *)

Section TraceLemmas.

Lemma attempts_in_app (xs ys : list event) :
  attempts_in (xs ++ ys) = attempts_in xs ++ attempts_in ys.
Proof.
  induction xs as [|ev xs IH]; simpl; [reflexivity|].
  destruct ev; simpl; rewrite ?IH; reflexivity.
Qed.

Lemma persisted_in_app (xs ys : list event) :
  persisted_in (xs ++ ys) = persisted_in xs ++ persisted_in ys.
Proof.
  induction xs as [|ev xs IH]; simpl; [reflexivity|].
  destruct ev as [| | | | | | | |dest el fl [[|]|]| | |]; simpl; rewrite ?IH; reflexivity.
Qed.

Lemma writes_in_app (xs ys : list event) :
  writes_in (xs ++ ys) = writes_in xs ++ writes_in ys.
Proof.
  induction xs as [|ev xs IH]; simpl; [reflexivity|].
  destruct ev; simpl; rewrite ?IH; reflexivity.
Qed.

Lemma metas_in_app (xs ys : list event) :
  metas_in (xs ++ ys) = metas_in xs ++ metas_in ys.
Proof.
  induction xs as [|ev xs IH]; simpl; [reflexivity|].
  destruct ev; simpl; rewrite ?IH; reflexivity.
Qed.

Lemma dests_in_app (xs ys : list event) :
  dests_in (xs ++ ys) = dests_in xs ++ dests_in ys.
Proof.
  induction xs as [|ev xs IH]; simpl; [reflexivity|].
  destruct ev; simpl; rewrite ?IH; reflexivity.
Qed.

Lemma reads_in_app (xs ys : list event) :
  reads_in (xs ++ ys) = reads_in xs ++ reads_in ys.
Proof.
  induction xs as [|ev xs IH]; simpl; [reflexivity|].
  destruct ev; simpl; rewrite ?IH; reflexivity.
Qed.

Lemma errors_in_app (xs ys : list event) :
  errors_in (xs ++ ys) = errors_in xs ++ errors_in ys.
Proof.
  induction xs as [|ev xs IH]; simpl; [reflexivity|].
  destruct ev; simpl; rewrite ?IH; reflexivity.
Qed.

End TraceLemmas.

(** * One element: __attempt_analyse *)

Lemma attempt_events_app el dest flag (xs ys : list event) :
  attempt_events el dest flag xs -> attempt_events el dest flag ys ->
  attempt_events el dest flag (xs ++ ys).
Proof.
  intros (A1 & W1 & D1 & M1 & R1) (A2 & W2 & D2 & M2 & R2).
  unfold attempt_events.
  rewrite attempts_in_app, writes_in_app, dests_in_app, metas_in_app, reads_in_app.
  rewrite D1, D2, M1, M2, R1, R2.
  repeat split; try reflexivity; apply Forall_app; split; assumption.
Qed.

Section Attempt.

Context {W : Type} `{Storage W} `{Hooks W} `{MTModule W}.

Lemma same_settings_refl (a : Analyser W) : same_settings a a.
Proof. repeat split. Qed.

Lemma same_settings_trans (a b c : Analyser W) :
  same_settings a b -> same_settings b c -> same_settings a c.
Proof.
  unfold same_settings.
  intros (?&?&?&?&?&?) (?&?&?&?&?&?); repeat split; congruence.
Qed.

Lemma attempt_unfold (n : nat) (el : LocalElement) :
  __attempt_analyse n el =
  try_except (attempt_body el)
    (fun e =>
       match e with
       | ElementShouldSkipError _ => error_logger (exn_str e) el
       | ElementShouldRetryError _ =>
           bind (error_logger (exn_str e) el) (fun _ => retry_or_give_up n el)
       | InvalidAnalyserElements _ | OtherException _ =>
           bind (get (@dev W)) (fun is_dev =>
             if is_dev : bool then raise e
             else bind (error_logger (exn_str e ++ ": skipping element") el)
                       (fun _ => emit TracebackPrinted))
       | BaseExceptionOnly _ => raise e
       end).
Proof. destruct n as [|[|n]]; reflexivity. Qed.

Lemma body_raises el (a : Analyser W) e w1 :
  analyse_element el (config a) (world a) = (Raise e, w1) ->
  attempt_body el a = (Raise e, after_call el w1 a).
Proof. intros Hc. run. rewrite Hc. reflexivity. Qed.

Lemma body_returns_none el (a : Analyser W) w1 :
  analyse_element el (config a) (world a) = (Ok None, w1) ->
  attempt_body el a = (Ok tt, after_call el w1 a).
Proof. intros Hc. run. rewrite Hc. reflexivity. Qed.

Lemma body_writes el (a : Analyser W) new_el w1 r w2 :
  analyse_element el (config a) (world a) = (Ok (Some new_el), w1) ->
  write_element (dest_q a) new_el (delete_local_on_write a) w1 = (r, w2) ->
  attempt_body el a =
    (match r with
     | Ok true => Ok tt
     | Ok false => Raise (ElementShouldRetryError "Unsuccessful storage")
     | Raise e => Raise e
     end, after_write el new_el r w2 a).
Proof.
  intros Hc Hw. run. rewrite Hc. simpl. rewrite Hw.
  destruct r as [[|]|e]; reflexivity.
Qed.

Lemma attempt_body_frame el (a : Analyser W) r a1 :
  attempt_body el a = (r, a1) ->
  same_settings a a1 /\ errored a1 = errored a /\
  exists evs, trace a1 = trace a ++ evs /\
    attempt_events el (dest_q a) (delete_local_on_write a) evs /\
    attempts_in evs = [el] /\
    (r = Ok tt \/ persisted_in evs = []).
Proof.
  intros Hb.
  destruct (analyse_element el (config a) (world a)) as [[[new_el|]|e] w1] eqn:Hc.
  - destruct (write_element (dest_q a) new_el (delete_local_on_write a) w1)
      as [rw w2] eqn:Hw.
    rewrite (body_writes _ _ _ _ _ _ Hc Hw) in Hb. inversion Hb; subst; clear Hb.
    split; [repeat split|]. split; [reflexivity|].
    eexists; split; [simpl; rewrite <- app_assoc; reflexivity|].
    split; [|split; [reflexivity|]].
    + unfold attempt_events; simpl. repeat split; auto.
    + destruct rw as [[|]|e]; simpl; auto.
  - rewrite (body_returns_none _ _ _ Hc) in Hb. inversion Hb; subst; clear Hb.
    split; [repeat split|]. split; [reflexivity|].
    eexists; split; [simpl; reflexivity|].
    split; [|split; [reflexivity|auto]].
    unfold attempt_events; simpl. repeat split; auto.
  - rewrite (body_raises _ _ _ _ Hc) in Hb. inversion Hb; subst; clear Hb.
    split; [repeat split|]. split; [reflexivity|].
    eexists; split; [simpl; reflexivity|].
    split; [|split; [reflexivity|auto]].
    unfold attempt_events; simpl. repeat split; auto.
Qed.

Lemma log_is_attempt_event el dest flag msg el' :
  attempt_events el dest flag [ErrorLogged msg el'].
Proof. unfold attempt_events; simpl; repeat split; auto. Qed.

Lemma two_logs_are_attempt_events el dest flag ev msg el' :
  attempt_events el dest flag [ev] ->
  attempt_events el dest flag [ev; ErrorLogged msg el'].
Proof.
  intros Hev. change [ev; ErrorLogged msg el'] with ([ev] ++ [ErrorLogged msg el']).
  apply attempt_events_app; [assumption|apply log_is_attempt_event].
Qed.

(** What [__attempt_analyse] does with each outcome of its [try] block. *)

Lemma attempt_on_ok n el (a a1 : Analyser W) :
  attempt_body el a = (Ok tt, a1) ->
  __attempt_analyse n el a = (Ok tt, a1).
Proof. intros Hb. rewrite attempt_unfold. unfold try_except. rewrite Hb. reflexivity. Qed.

Lemma attempt_on_skip n el (a a1 : Analyser W) m :
  attempt_body el a = (Raise (ElementShouldSkipError m), a1) ->
  __attempt_analyse n el a =
    (Ok tt, with_event (ErrorLogged (exn_str (ElementShouldSkipError m)) el) a1).
Proof. intros Hb. rewrite attempt_unfold. unfold try_except. rewrite Hb. reflexivity. Qed.

Lemma attempt_on_retry_more k el (a a1 : Analyser W) m :
  attempt_body el a = (Raise (ElementShouldRetryError m), a1) ->
  __attempt_analyse (S (S k)) el a =
    __attempt_analyse (S k) el
      (with_event (ErrorLogged (exn_str (ElementShouldRetryError m)) el) a1).
Proof. intros Hb. rewrite attempt_unfold. unfold try_except. rewrite Hb. reflexivity. Qed.

Lemma attempt_on_retry_last n el (a a1 : Analyser W) m :
  n <= 1 ->
  attempt_body el a = (Raise (ElementShouldRetryError m), a1) ->
  __attempt_analyse n el a =
    (Ok tt,
     with_errored true
       (with_event (ErrorLogged exhausted_msg el)
          (with_event (ErrorLogged (exn_str (ElementShouldRetryError m)) el) a1))).
Proof.
  intros Hn Hb. rewrite attempt_unfold. unfold try_except. rewrite Hb.
  destruct n as [|[|n]]; [reflexivity|reflexivity|lia].
Qed.

Lemma attempt_on_unclassified n el (a a1 : Analyser W) e :
  unclassified e ->
  is_Exception e = true ->
  attempt_body el a = (Raise e, a1) ->
  __attempt_analyse n el a =
    if dev a1 then (Raise e, a1)
    else (Ok tt,
          with_event TracebackPrinted
            (with_event (ErrorLogged (exn_str e ++ ": skipping element") el) a1)).
Proof.
  intros Hu He Hb. rewrite attempt_unfold. unfold try_except. rewrite Hb.
  destruct e; simpl in Hu; try contradiction; try discriminate;
    run; destruct (dev a1); reflexivity.
Qed.

(** An exception outside [Exception] meets no clause: it leaves
    [__attempt_analyse] as the [try] block raised it, in either mode. *)
Lemma attempt_on_base_exception n el (a a1 : Analyser W) e :
  is_Exception e = false ->
  attempt_body el a = (Raise e, a1) ->
  __attempt_analyse n el a = (Raise e, a1).
Proof.
  intros He Hb. rewrite attempt_unfold. unfold try_except. rewrite Hb.
  destruct e; try discriminate. reflexivity.
Qed.

(** Whatever the hook and the storage do, the attempts on one element
    leave the settings alone, never reset [errored], and add to the trace
    only calls of the hook on that element and writes to the destination
    in force, under the flag in force. *)
Lemma attempt_frame (n : nat) (el : LocalElement) :
  forall (a : Analyser W) r a',
    __attempt_analyse n el a = (r, a') ->
    same_settings a a' /\ (errored a = true -> errored a' = true) /\
    exists evs, trace a' = trace a ++ evs /\
      attempt_events el (dest_q a) (delete_local_on_write a) evs.
Proof.
  induction n as [|n IH]; intros a r a' Hrun;
    destruct (attempt_body el a) as [rb a1] eqn:Hb;
    pose proof (attempt_body_frame _ _ _ _ Hb) as (Hs & He & evs & Ht & Hev & _ & _);
    pose proof Hs as (Hn & Hc & Hp & Hd & Hq & Hf);
    destruct rb as [[]|[m|m|m|m|m]].
  all: try (rewrite (attempt_on_ok _ _ _ _ Hb) in Hrun;
            inversion Hrun; subst; clear Hrun;
            split; [assumption|]; split; [congruence|];
            exists evs; split; assumption).
  all: try (rewrite (attempt_on_skip _ _ _ _ _ Hb) in Hrun;
            inversion Hrun; subst; clear Hrun; simpl;
            split; [assumption|]; split; [congruence|];
            rewrite Ht, <- app_assoc; eexists; split; [reflexivity|];
            apply attempt_events_app; [exact Hev|apply log_is_attempt_event]).
  all: try (match type of Hb with
            | _ = (Raise ?e, _) =>
                rewrite (attempt_on_unclassified _ _ _ _ e I eq_refl Hb) in Hrun
            end;
            destruct (dev a1); inversion Hrun; subst; clear Hrun; simpl;
            (split; [assumption|]); (split; [congruence|]);
            [ exists evs; split; assumption
            | rewrite Ht, <- ?app_assoc; simpl; eexists; (split; [reflexivity|]);
              apply attempt_events_app; [exact Hev|];
              unfold attempt_events; simpl; repeat split; auto ]).
  all: try (match type of Hb with
            | _ = (Raise ?e, _) =>
                rewrite (attempt_on_base_exception _ _ _ _ e eq_refl Hb) in Hrun
            end;
            inversion Hrun; subst; clear Hrun;
            split; [assumption|]; split; [congruence|];
            exists evs; split; assumption).
  - rewrite (attempt_on_retry_last 0 _ _ _ _ Nat.le_0_1 Hb) in Hrun.
    inversion Hrun; subst; clear Hrun; simpl.
    split; [assumption|]. split; [auto|].
    rewrite Ht, <- ?app_assoc; simpl. eexists; split; [reflexivity|].
    apply attempt_events_app; [exact Hev|].
    apply two_logs_are_attempt_events, log_is_attempt_event.
  - destruct n as [|k].
    + rewrite (attempt_on_retry_last 1 _ _ _ _ (le_n 1) Hb) in Hrun.
      inversion Hrun; subst; clear Hrun; simpl.
      split; [assumption|]. split; [auto|].
      rewrite Ht, <- ?app_assoc; simpl. eexists; split; [reflexivity|].
      apply attempt_events_app; [exact Hev|].
      apply two_logs_are_attempt_events, log_is_attempt_event.
    + rewrite (attempt_on_retry_more _ _ _ _ _ Hb) in Hrun.
      apply IH in Hrun as (Hs' & He' & evs' & Ht' & Hev').
      simpl in *.
      split; [eapply same_settings_trans; [exact Hs|]; exact Hs'|].
      split; [intros E; apply He'; simpl; congruence|].
      rewrite Ht', Ht, <- ?app_assoc; simpl. eexists; split; [reflexivity|].
      apply attempt_events_app; [exact Hev|].
      change (?x :: ?l) with ([x] ++ l).
      apply attempt_events_app; [apply log_is_attempt_event|].
      rewrite <- Hq, <- Hf. exact Hev'.
Qed.

(** An attempt that calls for a retry, seen from [__attempt_analyse]: the
    [try] block raises should-retry, nothing was persisted, and only the
    world and the trace have moved. *)
Lemma body_fails el (a : Analyser W) w' :
  attempt_fails el (config a) (dest_q a) (delete_local_on_write a) (world a) w' ->
  exists m a1,
    attempt_body el a = (Raise (ElementShouldRetryError m), a1) /\
    world a1 = w' /\ same_settings a a1 /\ errored a1 = errored a /\
    exists evs, trace a1 = trace a ++ evs /\
      attempts_in evs = [el] /\ persisted_in evs = [].
Proof.
  intros [(m & Hc) | (new_el & w1 & Hc & Hw)].
  - exists m, (after_call el w' a). rewrite (body_raises _ _ _ _ Hc).
    repeat split. exists [Attempted el]. repeat split.
  - exists "Unsuccessful storage",
      (after_write el new_el (Ok false) w' a).
    rewrite (body_writes _ _ _ _ _ _ Hc Hw).
    repeat split. eexists. simpl. rewrite <- app_assoc. repeat split.
Qed.

Lemma attempt_exhausts (el : LocalElement) (n : nat) :
  forall a : Analyser W,
    fails_on_each_of (S n) el (config a) (dest_q a) (delete_local_on_write a) (world a) ->
    exists a' evs,
      __attempt_analyse (S n) el a = (Ok tt, a') /\
      trace a' = trace a ++ evs /\
      attempts_in evs = repeat el (S n) /\
      persisted_in evs = [] /\
      In (exhausted_msg, el) (errors_in evs) /\
      errored a' = true /\
      same_settings a a'.
Proof.
  induction n as [|n IH]; intros a (w' & Hfail & Hmore);
    apply body_fails in Hfail
      as (m & a1 & Hb & Hw & Hs & He & evs & Ht & Hat & Hpe).
  - rewrite (attempt_on_retry_last 1 _ _ _ _ (le_n 1) Hb).
    eexists; eexists; split; [reflexivity|]. simpl.
    rewrite Ht, <- !app_assoc. split; [reflexivity|].
    rewrite attempts_in_app, persisted_in_app, errors_in_app, Hat, Hpe. simpl.
    repeat split; try apply Hs.
    apply in_or_app; right; simpl; auto.
  - rewrite (attempt_on_retry_more _ _ _ _ _ Hb).
    set (a2 := with_event _ a1).
    destruct Hs as (Hn & Hc & Hp & Hd & Hq & Hf).
    destruct (IH a2) as (a' & evs' & Hrun & Ht' & Hat' & Hpe' & Hin & Herr & Hs').
    { simpl. rewrite Hc, Hq, Hf, Hw. exact Hmore. }
    exists a', (evs ++ ErrorLogged (exn_str (ElementShouldRetryError m)) el :: evs').
    split; [exact Hrun|].
    split; [rewrite Ht'; simpl; rewrite Ht, <- !app_assoc; reflexivity|].
    rewrite attempts_in_app, persisted_in_app, errors_in_app, Hat, Hpe. simpl.
    rewrite Hat', Hpe'.
    repeat split; try (destruct Hs' as (?&?&?&?&?&?); simpl in *; congruence).
    apply in_or_app; right; simpl; auto.
Qed.

Lemma attempt_succeeds_after (el new_el : LocalElement) (k : nat) :
  forall (n : nat) (a : Analyser W) (wk w1 w2 : W),
    k < n ->
    raises_retry_times k el (config a) (world a) wk ->
    analyse_element el (config a) wk = (Ok (Some new_el), w1) ->
    write_element (dest_q a) new_el (delete_local_on_write a) w1 = (Ok true, w2) ->
    exists a' evs,
      __attempt_analyse n el a = (Ok tt, a') /\
      trace a' = trace a ++ evs /\
      attempts_in evs = repeat el (S k) /\
      writes_in evs = [(dest_q a, new_el, delete_local_on_write a)] /\
      persisted_in evs = [(dest_q a, new_el)] /\
      errored a' = errored a /\
      world a' = w2 /\
      same_settings a a'.
Proof.
  induction k as [|k IH]; intros n a wk w1 w2 Hlt Hretries Hc Hw.
  - simpl in Hretries; subst wk.
    rewrite (attempt_on_ok n _ _ _ (body_writes _ _ _ _ _ _ Hc Hw)).
    eexists; eexists; split; [reflexivity|]. simpl. rewrite <- app_assoc.
    repeat split.
  - destruct Hretries as (m & w0 & Hraise & Hretries).
    destruct n as [|[|n]]; [lia|lia|].
    rewrite (attempt_on_retry_more _ _ _ _ _ (body_raises _ _ _ _ Hraise)).
    set (a2 := with_event _ _).
    destruct (IH (S n) a2 wk w1 w2) as
      (a' & evs' & Hrun & Ht' & Hat' & Hwr' & Hpe' & Herr & Hwo & Hs');
      [lia|exact Hretries|exact Hc|exact Hw|].
    exists a',
      (Attempted el :: ErrorLogged (exn_str (ElementShouldRetryError m)) el :: evs').
    split; [exact Hrun|].
    split; [rewrite Ht'; simpl; rewrite <- !app_assoc; reflexivity|].
    simpl. rewrite Hat', Hwr', Hpe'.
    repeat split; try assumption;
      destruct Hs' as (?&?&?&?&?&?); simpl in *; congruence.
Qed.

(** [k] attempts that call for a retry use up [k] of the attempts: they
    add their events to the trace and move the world, and leave everything
    else as it was. *)
Lemma retry_rounds_peel (el : LocalElement) (k : nat) :
  forall (n : nat) (a : Analyser W) (evs : list event) (wk : W),
    k < n ->
    retry_rounds k el (config a) (dest_q a) (delete_local_on_write a)
                 (world a) evs wk ->
    exists ak,
      __attempt_analyse n el a = __attempt_analyse (n - k) el ak /\
      world ak = wk /\ same_settings a ak /\ errored ak = errored a /\
      trace ak = trace a ++ evs /\
      attempts_in evs = repeat el k /\ persisted_in evs = [].
Proof.
  induction k as [|k IH]; intros n a evs wk Hlt Hrounds.
  - destruct Hrounds as (-> & ->). exists a.
    rewrite Nat.sub_0_r, app_nil_r. repeat split.
  - destruct Hrounds as (round & w1 & evs' & Hround & Hrest & ->).
    destruct n as [|[|n]]; [lia|lia|].
    assert (Hstep : exists m a1,
              attempt_body el a = (Raise (ElementShouldRetryError m), a1) /\
              world a1 = w1 /\ same_settings a a1 /\ errored a1 = errored a /\
              trace a1 ++ [ErrorLogged (exn_str (ElementShouldRetryError m)) el]
                = trace a ++ round /\
              attempts_in round = [el] /\ persisted_in round = []).
    { destruct Hround as [(m & Hc & ->)|(new_el & w0 & Hc & Hw & ->)].
      - exists m, (after_call el w1 a). rewrite (body_raises _ _ _ _ Hc).
        repeat split. simpl. rewrite <- app_assoc. reflexivity.
      - exists "Unsuccessful storage", (after_write el new_el (Ok false) w1 a).
        rewrite (body_writes _ _ _ _ _ _ Hc Hw).
        repeat split. simpl. rewrite <- !app_assoc. reflexivity. }
    destruct Hstep as (m & a1 & Hb & Hw1 & Hs & He & Ht & Hat & Hpe).
    rewrite (attempt_on_retry_more _ _ _ _ _ Hb).
    set (a2 := with_event _ a1).
    destruct Hs as (Hn & Hc & Hp & Hd & Hq & Hf).
    destruct (IH (S n) a2 evs' wk)
      as (ak & Hrun & Hwo & Hs' & Herr & Ht' & Hat' & Hpe');
      [lia|simpl; rewrite Hc, Hq, Hf, Hw1; exact Hrest|].
    exists ak. change (S (S n) - S k) with (S n - k).
    split; [exact Hrun|]. split; [exact Hwo|].
    split; [destruct Hs' as (?&?&?&?&?&?); repeat split; simpl in *; congruence|].
    split; [rewrite Herr; simpl; exact He|].
    split; [rewrite Ht'; simpl; rewrite Ht, <- app_assoc; reflexivity|].
    rewrite attempts_in_app, persisted_in_app, Hat, Hat', Hpe, Hpe'.
    split; reflexivity.
Qed.

Lemma analyse_one_unfold (el : LocalElement) (a : Analyser W) :
  analyse_one el a =
    let d := dest_of (name a) el in
    match __attempt_analyse 5 el (with_dest_q d (with_event (DestSet d) a)) with
    | (Ok _, a2) => (Ok tt, with_delete_local_on_write false a2)
    | (Raise e, a2) => (Raise e, a2)
    end.
Proof. reflexivity. Qed.

Lemma analyse_loop_cons (el : LocalElement) (rest : list LocalElement) (a : Analyser W) :
  analyse_loop (el :: rest) a =
    match analyse_one el a with
    | (Ok _, a1) => analyse_loop rest a1
    | (Raise e, a1) => (Raise e, a1)
    end.
Proof. reflexivity. Qed.

Lemma always_fails_each (el : LocalElement) (cfg : Config) (n : nat) :
  always_fails el cfg ->
  forall dest flag (w : W), fails_on_each_of n el cfg dest flag w.
Proof.
  intros Hall. induction n as [|n IH]; intros dest flag w; simpl; [exact I|].
  destruct (Hall dest flag w) as (w' & Hf). exists w'. split; [exact Hf|apply IH].
Qed.

(** One turn of the loop of [analyse]: [dest_q] is assigned first, from
    the element's own query, the attempts write nowhere else, and the
    local-cache flag is cleared when the attempts return. *)
Lemma analyse_one_frame (el : LocalElement) (a : Analyser W) r a' :
  analyse_one el a = (r, a') ->
  same_identity a a' /\
  (errored a = true -> errored a' = true) /\
  dest_q a' = dest_of (name a) el /\
  delete_local_on_write a' =
    match r with Ok _ => false | Raise _ => delete_local_on_write a end /\
  exists evs,
    trace a' = trace a ++ DestSet (dest_of (name a) el) :: evs /\
    attempt_events el (dest_of (name a) el) (delete_local_on_write a) evs.
Proof.
  rewrite analyse_one_unfold. cbv zeta.
  set (d := dest_of (name a) el).
  destruct (__attempt_analyse 5 el (with_dest_q d (with_event (DestSet d) a)))
    as [r5 a5] eqn:Hrun.
  apply attempt_frame in Hrun as ((Hn & Hc & Hp & Hd & Hq & Hf) & He & evs & Ht & Hev).
  simpl in *.
  intros Hres.
  destruct r5 as [[]|e]; inversion Hres; subst; clear Hres; simpl;
    (split; [repeat split; assumption|]);
    (split; [exact He|]); (split; [exact Hq|]);
    (split; [try reflexivity; assumption|]);
    exists evs; rewrite Ht, <- app_assoc; split; [reflexivity|exact Hev|reflexivity|exact Hev].
Qed.

Lemma analyse_one_exhausts (el : LocalElement) (a : Analyser W) :
  fails_on_each_of 5 el (config a) (dest_of (name a) el)
                   (delete_local_on_write a) (world a) ->
  exists a' evs,
    analyse_one el a = (Ok tt, a') /\
    trace a' = trace a ++ DestSet (dest_of (name a) el) :: evs /\
    attempts_in evs = repeat el 5 /\
    persisted_in evs = [] /\
    In (exhausted_msg, el) (errors_in evs) /\
    errored a' = true.
Proof.
  intros Hfail. rewrite analyse_one_unfold. cbv zeta.
  set (d := dest_of (name a) el).
  destruct (attempt_exhausts el 4 (with_dest_q d (with_event (DestSet d) a)) Hfail)
    as (a5 & evs & Hrun & Ht & Hat & Hpe & Hin & Herr & _).
  rewrite Hrun. eexists; exists evs; split; [reflexivity|]. simpl.
  rewrite Ht. simpl. rewrite <- app_assoc. repeat split; assumption.
Qed.

End Attempt.

(** * The loop of [analyse] *)

Lemma turns_attempts d flag (els : list LocalElement) :
  forall evs, turns d flag els evs ->
    Forall (fun x => In x els) (attempts_in evs).
Proof.
  revert flag. induction els as [|el rest IH]; intros flag evs Ht; simpl in Ht.
  - subst. constructor.
  - destruct Ht as (seg & evs' & -> & (Hat & _) & Hrest). simpl.
    rewrite attempts_in_app. apply Forall_app. split.
    + eapply Forall_impl; [|exact Hat]. intros x <-. left; reflexivity.
    + eapply Forall_impl; [|exact (IH _ _ Hrest)]. intros x Hx. right; exact Hx.
Qed.

Lemma turns_flags d (els : list LocalElement) :
  forall evs, turns d false els evs ->
    Forall (fun w => snd w = false) (writes_in evs).
Proof.
  induction els as [|el rest IH]; intros evs Ht; simpl in Ht.
  - subst. constructor.
  - destruct Ht as (seg & evs' & -> & (_ & Hwr & _) & Hrest). simpl.
    rewrite writes_in_app. apply Forall_app. split.
    + eapply Forall_impl; [|exact Hwr]. intros x (_ & Hx); exact Hx.
    + exact (IH _ Hrest).
Qed.

Lemma turns_dests d flag (els : list LocalElement) :
  forall evs, turns d flag els evs -> dests_in evs = map d els.
Proof.
  revert flag. induction els as [|el rest IH]; intros flag evs Ht; simpl in Ht.
  - subst. reflexivity.
  - destruct Ht as (seg & evs' & -> & (_ & _ & Hd & _) & Hrest). simpl.
    rewrite dests_in_app, Hd, (IH _ _ Hrest). reflexivity.
Qed.

Lemma turns_writes d flag (els : list LocalElement) :
  forall evs, turns d flag els evs ->
    Forall (fun w => exists x, In x els /\ fst (fst w) = d x) (writes_in evs).
Proof.
  revert flag. induction els as [|el rest IH]; intros flag evs Ht; simpl in Ht.
  - subst. constructor.
  - destruct Ht as (seg & evs' & -> & (_ & Hwr & _) & Hrest). simpl.
    rewrite writes_in_app. apply Forall_app. split.
    + eapply Forall_impl; [|exact Hwr]. intros x (Hx & _).
      exists el. split; [left; reflexivity|exact Hx].
    + eapply Forall_impl; [|exact (IH _ _ Hrest)]. intros w (x & Hin & Hx).
      exists x. split; [right; exact Hin|exact Hx].
Qed.

Lemma turns_quiet d flag (els : list LocalElement) :
  forall evs, turns d flag els evs -> metas_in evs = [] /\ reads_in evs = [].
Proof.
  revert flag. induction els as [|el rest IH]; intros flag evs Ht; simpl in Ht.
  - subst. split; reflexivity.
  - destruct Ht as (seg & evs' & -> & (_ & _ & _ & Hm & Hr) & Hrest). simpl.
    rewrite metas_in_app, reads_in_app, Hm, Hr.
    exact (IH _ _ Hrest).
Qed.

Lemma last_of_cons {A : Type} (l : list A) :
  forall x d d', last (x :: l) d = last (x :: l) d'.
Proof.
  induction l as [|y l IH]; intros x d d'; [reflexivity|].
  change (last (y :: l) d = last (y :: l) d'). apply IH.
Qed.

Section Loop.

Context {W : Type} `{Storage W} `{Hooks W} `{MTModule W}.

Lemma analyse_loop_shape (els : list LocalElement) :
  forall a a' : Analyser W,
    analyse_loop els a = (Ok tt, a') ->
    same_identity a a' /\
    (errored a = true -> errored a' = true) /\
    dest_q a' = last (map (dest_of (name a)) els) (dest_q a) /\
    delete_local_on_write a' =
      match els with [] => delete_local_on_write a | _ => false end /\
    exists evs,
      trace a' = trace a ++ evs /\
      turns (dest_of (name a)) (delete_local_on_write a) els evs /\
      (forall el, In el (attempts_in evs) -> always_fails el (config a) ->
                  errored a' = true).
Proof.
  induction els as [|el rest IH]; intros a a' Hloop.
  - inversion Hloop; subst; clear Hloop.
    split; [repeat split|]. split; [auto|]. split; [reflexivity|].
    split; [reflexivity|].
    exists []. rewrite app_nil_r. split; [reflexivity|]. split; [reflexivity|].
    intros el [].
  - rewrite analyse_loop_cons in Hloop.
    destruct (analyse_one el a) as [r1 a1] eqn:Hone.
    destruct r1 as [[]|e]; [|discriminate].
    pose proof (analyse_one_frame _ _ _ _ Hone)
      as ((Hn & Hc & Hp & Hd) & He & Hq & Hf & seg & Ht & Hev).
    destruct (IH _ _ Hloop)
      as ((Hn' & Hc' & Hp' & Hd') & He' & Hq' & Hf' & evs' & Ht' & Hturns & Hall).
    split; [repeat split; congruence|]. split; [auto|].
    split.
    { rewrite Hq', Hn, Hq. simpl. destruct rest; [reflexivity|].
      apply last_of_cons. }
    split.
    { rewrite Hf'. destruct rest; [exact Hf|reflexivity]. }
    exists (DestSet (dest_of (name a) el) :: seg ++ evs').
    split.
    { rewrite Ht', Ht, <- app_assoc. reflexivity. }
    split.
    { simpl. exists seg, evs'. split; [reflexivity|]. split; [exact Hev|].
      rewrite Hn, Hf in Hturns. exact Hturns. }
    intros el0 Hin Hfails. simpl in Hin. rewrite attempts_in_app in Hin.
    apply in_app_or in Hin as [Hin|Hin].
    + destruct Hev as (Hat & _).
      rewrite Forall_forall in Hat. apply Hat in Hin. subst el0.
      destruct (analyse_one_exhausts el a
                  (always_fails_each el (config a) 5 Hfails _ _ _))
        as (a1' & evs1 & Hone' & _ & _ & _ & _ & Herr).
      rewrite Hone in Hone'. inversion Hone'; subst a1'.
      apply He'. exact Herr.
    + apply (Hall el0 Hin). rewrite Hc. exact Hfails.
Qed.

End Loop.

(** * Strings and the selector of a run *)





Section Selector.

Context {W : Type} `{Storage W}.



End Selector.

(** * The run: start_analysing *)

Section Run.

Context {W : Type} `{Storage W} `{Hooks W} `{MTModule W}.

Lemma phase_unfold {A : Type} (key : string) (body : M A) (a : Analyser W) :
  phase key body a =
    (fst (body (with_event (PhaseEntered key) a)),
     with_event LogsFlushed (snd (body (with_event (PhaseEntered key) a)))).
Proof.
  unfold phase. destruct (body (with_event (PhaseEntered key) a)); reflexivity.
Qed.

Lemma start_analysing_unfold (a : Analyser W) :
  start_analysing a =
    match __pre_analyse (with_event (Logged (mode_msg a)) a) with
    | (Raise e, a1) => (Raise e, a1)
    | (Ok _, a1) =>
        match __analyse a1 with
        | (Raise e, a2) => (Raise e, a2)
        | (Ok _, a2) =>
            match __post_analyse a2 with
            | (Raise e, a3) => (Raise e, a3)
            | (Ok _, a3) =>
                if errored a3 then (Ok tt, with_event LogsFlushed a3)
                else
                  match disk_write_meta (meta_path a3) (meta_record a3) a3 with
                  | (Raise e, a4) => (Raise e, a4)
                  | (Ok _, a4) => (Ok tt, with_event LogsFlushed a4)
                  end
            end
        end
    end.
Proof.
  unfold start_analysing, bind, get, logger, flush_logs, emit, modify, ret, mode_msg.
  destruct (__pre_analyse _) as [[[]|e1] a1]; [|reflexivity].
  destruct (__analyse a1) as [[[]|e2] a2]; [|reflexivity].
  destruct (__post_analyse a2) as [[[]|e3] a3]; [|reflexivity].
  destruct (errored a3); [reflexivity|].
  destruct (disk_write_meta _ _ a3) as [[[]|e4] a4]; reflexivity.
Qed.

(** The pre phase only calls the hook. *)
Lemma pre_analyse_frame (a : Analyser W) r a' :
  __pre_analyse a = (r, a') ->
  same_settings a a' /\ errored a' = errored a /\
  a' = with_event LogsFlushed
         (with_world (snd (pre_analyse (config a) (world a)))
            (with_event PreAnalyseCalled
               (with_event (PhaseEntered "pre-analyse") a))) /\
  r = fst (pre_analyse (config a) (world a)).
Proof.
  unfold __pre_analyse. rewrite phase_unfold.
  unfold bind, get, emit, modify, call. simpl.
  destruct (pre_analyse (config a) (world a)) as [[[]|e] w1]; simpl;
    intros Hres; inversion Hres; subst; repeat split.
Qed.

(** The main phase of a serial run that returned: the storage answered a
    non-empty list of elements and the loop ran over it to its end. *)
Lemma analyse_serial_ok (a a' : Analyser W) :
  in_parallel a = false ->
  __analyse a = (Ok tt, a') ->
  exists els w1 a2,
    els <> [] /\
    read_elements (elements_in (config a)) (world a) = (Ok els, w1) /\
    analyse_loop els
      (with_event (PhaseEntered "analyse")
         (with_world w1 (with_event (ElementsRead (elements_in (config a))) a)))
      = (Ok tt, a2) /\
    a' = with_event LogsFlushed a2.
Proof.
  intros Hser. unfold __analyse, disk_read_elements, analyse.
  unfold bind, try_except, get, emit, modify, call, raise. simpl.
  destruct (read_elements (elements_in (config a)) (world a)) as [[els|e] w1];
    simpl; [|discriminate].
  destruct els as [|el els]; [discriminate|].
  change (in_parallel (with_world w1
            (with_event (ElementsRead (elements_in (config a))) a)))
    with (in_parallel a).
  rewrite Hser. rewrite phase_unfold.
  set (a1 := with_event (PhaseEntered "analyse") _).
  destruct (analyse_loop (el :: els) a1) as [[[]|e] a2] eqn:Hloop; simpl;
    intros Hres; inversion Hres; subst.
  exists (el :: els), w1, a2. repeat split; [discriminate|exact Hloop].
Qed.

Lemma write_aggregate_frame (outel : LocalElement) (qs : list string) :
  forall (a : Analyser W) r a',
    write_aggregate qs outel a = (r, a') ->
    same_settings a a' /\ errored a' = errored a /\
    exists evs, trace a' = trace a ++ evs /\ reads_in evs = [] /\
      aggregate_writes (name a) qs evs.
Proof.
  induction qs as [|q qs IH]; intros a r a' Hrun.
  - inversion Hrun; subst. split; [repeat split|]. split; [reflexivity|].
    exists []. rewrite app_nil_r. repeat split. constructor.
  - simpl in Hrun. unfold bind, get, disk_write_element, ret in Hrun.
    simpl in Hrun.
    destruct (write_element _ outel (delete_local_on_write a) (world a))
      as [rw w1] eqn:Hw.
    set (a1 := with_event _ _) in Hrun.
    assert (Hfirst : aggregate_writes (name a) (q :: qs)
              [Written (fst (read_query q) ++ "/" ++ name a)%string outel
                       (delete_local_on_write a) rw]).
    { repeat split. constructor; [|constructor].
      exists q. split; [left; reflexivity|reflexivity]. }
    destruct rw as [b|e].
    + destruct (write_aggregate qs outel a1) as [rr a2] eqn:Hrest.
      apply IH in Hrest as (Hs & He & evs & Ht & Hr & (Hat & Hm & Hd & Hwr)).
      assert (a' = a2) by (destruct rr; inversion Hrun; reflexivity). subst a2.
      split; [exact Hs|]. split; [exact He|].
      eexists. split; [rewrite Ht; simpl; rewrite <- app_assoc; reflexivity|].
      simpl. rewrite Hr. split; [reflexivity|].
      unfold aggregate_writes. simpl. rewrite Hat, Hm, Hd. repeat split.
      constructor.
      * exists q. split; [left; reflexivity|reflexivity].
      * eapply Forall_impl; [|exact Hwr]. intros w (q' & Hin & Hq').
        exists q'. split; [right; exact Hin|exact Hq'].
    + inversion Hrun; subst.
      split; [repeat split|]. split; [reflexivity|].
      eexists. split; [reflexivity|]. split; [reflexivity|exact Hfirst].
Qed.

Lemma post_analyse_frame (a : Analyser W) r a' :
  __post_analyse a = (r, a') ->
  same_settings a a' /\ errored a' = errored a /\
  exists evs, trace a' = trace a ++ evs /\
    reads_in evs = [[dest_q a]] /\
    aggregate_writes (name a) (elements_in (config a)) evs.
Proof.
  unfold __post_analyse. rewrite phase_unfold.
  unfold disk_read_elements, bind, get, get_dest_q, emit, modify, call, ret, raise.
  simpl.
  destruct (read_elements [dest_q a] (world a)) as [[els|e] w1]; simpl.
  2: { intros Hres; inversion Hres; subst. split; [repeat split|].
       split; [reflexivity|]. eexists. simpl. rewrite <- !app_assoc.
       split; [reflexivity|]. repeat split. constructor. }
  destruct (post_analyse els w1) as [[[outel|]|e] w2]; simpl.
  2,3: intros Hres; inversion Hres; subst; (split; [repeat split|]);
       (split; [reflexivity|]); eexists; simpl; rewrite <- !app_assoc;
       (split; [reflexivity|]); repeat split; constructor.
  set (a1 := with_world w2 _).
  destruct (write_aggregate (elements_in (config a)) outel a1) as [rr a2] eqn:Hagg.
  apply write_aggregate_frame in Hagg
    as ((Hn & Hc & Hp & Hd & Hq & Hf) & He & evs & Ht & Hr & (Hat & Hm & Hds & Hwr)).
  simpl in *.
  assert (Hshape : forall r0, (r0, with_event LogsFlushed a2) = (r, a') ->
    same_settings a a' /\ errored a' = errored a /\
    exists evs0, trace a' = trace a ++ evs0 /\
      reads_in evs0 = [[dest_q a]] /\
      aggregate_writes (name a) (elements_in (config a)) evs0).
  { intros r0 Hres. inversion Hres; subst. simpl.
    split; [repeat split; assumption|]. split; [exact He|].
    eexists. rewrite Ht. rewrite <- !app_assoc. simpl.
    split; [reflexivity|].
    unfold aggregate_writes. simpl.
    rewrite reads_in_app, attempts_in_app, metas_in_app, dests_in_app,
            writes_in_app, Hr, Hat, Hm, Hds. simpl. rewrite app_nil_r.
    repeat split. exact Hwr. }
  destruct rr as [successes|e]; simpl; [|apply Hshape].
  destruct (forallb (fun b => b) successes); simpl; apply Hshape.
Qed.

Lemma write_meta_frame (path : string) (m : Meta) (a : Analyser W) r a' :
  disk_write_meta path m a = (r, a') ->
  same_settings a a' /\ errored a' = errored a /\
  trace a' = trace a ++ [MetaWritten path m].
Proof.
  unfold disk_write_meta, bind, emit, modify, call. simpl.
  destruct (write_meta path m (world a)) as [rw w1].
  intros Hres; inversion Hres; subst. repeat split.
Qed.

Lemma meta_path_same (a a' : Analyser W) :
  name a' = name a -> config a' = config a -> meta_path a' = meta_path a.
Proof.
  intros Hn Hc. unfold meta_path, get_selector. rewrite Hn, Hc. reflexivity.
Qed.

Lemma meta_record_same (a a' : Analyser W) :
  name a' = name a -> config a' = config a -> meta_record a' = meta_record a.
Proof.
  intros Hn Hc. unfold meta_record. rewrite Hn, Hc. reflexivity.
Qed.

(** The trace of a serial run that returned. *)
Lemma serial_run_shape (a a' : Analyser W) :
  in_parallel a = false ->
  start_analysing a = (Ok tt, a') ->
  same_identity a a' /\
  exists els main post,
    els <> [] /\
    trace a' = trace a ++ prologue a ++ main ++ [LogsFlushed] ++ post ++ epilogue a a' /\
    turns (dest_of (name a)) (delete_local_on_write a) els main /\
    (forall el, In el (attempts_in main) -> always_fails el (config a) ->
                errored a' = true) /\
    reads_in post = [[last (map (dest_of (name a)) els) (dest_q a)]] /\
    aggregate_writes (name a) (elements_in (config a)) post.
Proof.
  intros Hser Hrun. rewrite start_analysing_unfold in Hrun.
  set (a0 := with_event (Logged (mode_msg a)) a) in Hrun.
  destruct (__pre_analyse a0) as [r1 a1] eqn:Hpre.
  pose proof (pre_analyse_frame _ _ _ Hpre)
    as ((Hn1 & Hc1 & Hp1 & Hd1 & Hq1 & Hf1) & He1 & Ha1 & _).
  destruct r1 as [[]|e]; [|discriminate].
  destruct (__analyse a1) as [r2 a2] eqn:Hmain.
  destruct r2 as [[]|e]; [|discriminate].
  assert (Hser1 : in_parallel a1 = false) by (rewrite Hp1; exact Hser).
  destruct (analyse_serial_ok _ _ Hser1 Hmain)
    as (els & w1 & a2' & Hne & _ & Hloop & Ha2).
  set (x := with_event (PhaseEntered "analyse") _) in Hloop.
  destruct (analyse_loop_shape _ _ _ Hloop)
    as ((Hnx & Hcx & Hpx & Hdx) & Hex & Hqx & Hfx & main & Htx & Hturns & Hall).
  destruct (__post_analyse a2) as [r3 a3] eqn:Hpost.
  pose proof (post_analyse_frame _ _ _ Hpost)
    as ((Hn3 & Hc3 & Hp3 & Hd3 & Hq3 & Hf3) & He3 & post & Ht3 & Hr3 & Hagg).
  destruct r3 as [[]|e]; [|discriminate].
  assert (Hname : name a3 = name a).
  { rewrite Hn3, Ha2. simpl. rewrite Hnx. unfold x. simpl. exact Hn1. }
  assert (Hconf : config a3 = config a).
  { rewrite Hc3, Ha2. simpl. rewrite Hcx. unfold x. simpl. exact Hc1. }
  assert (Htrace : trace a3 =
            trace a ++ prologue a ++ main ++ [LogsFlushed] ++ post).
  { rewrite Ht3, Ha2. simpl. rewrite Htx. unfold x. simpl.
    rewrite Ha1. simpl. unfold prologue. simpl.
    rewrite <- !app_assoc. reflexivity. }
  assert (Hmid : same_identity a a3).
  { repeat split; try assumption.
    - rewrite Hp3, Ha2. simpl. rewrite Hpx. unfold x. simpl. exact Hp1.
    - rewrite Hd3, Ha2. simpl. rewrite Hdx. unfold x. simpl. exact Hd1. }
  assert (Herr : forall el, In el (attempts_in main) ->
            always_fails el (config a) -> errored a3 = true).
  { intros el Hin Hfails. rewrite He3, Ha2. simpl.
    apply (Hall el Hin). unfold x. simpl. rewrite Hc1. exact Hfails. }
  assert (Hreads : reads_in post =
            [[last (map (dest_of (name a)) els) (dest_q a)]]).
  { rewrite Hr3, Ha2. simpl. rewrite Hqx. unfold x. simpl.
    rewrite Hn1, Hq1. reflexivity. }
  assert (Hagg' : aggregate_writes (name a) (elements_in (config a)) post).
  { rewrite Ha2 in Hagg. simpl in Hagg. rewrite Hnx, Hcx in Hagg.
    unfold x in Hagg. simpl in Hagg. rewrite Hn1, Hc1 in Hagg. exact Hagg. }
  assert (Hturns' : turns (dest_of (name a)) (delete_local_on_write a) els main).
  { unfold x in Hturns. simpl in Hturns. rewrite Hn1, Hf1 in Hturns. exact Hturns. }
  destruct (errored a3) eqn:Hfinal.
  - inversion Hrun; subst a'. split; [exact Hmid|].
    exists els, main, post. split; [exact Hne|].
    split.
    { simpl. rewrite Htrace. unfold epilogue. simpl. rewrite Hfinal.
      repeat (progress (simpl; rewrite <- ?app_assoc)). reflexivity. }
    split; [exact Hturns'|]. split; [intros; exact Hfinal|].
    split; [exact Hreads|exact Hagg'].
  - destruct (disk_write_meta (meta_path a3) (meta_record a3) a3)
      as [r4 a4] eqn:Hmeta.
    pose proof (write_meta_frame _ _ _ _ _ Hmeta)
      as ((Hn4 & Hc4 & Hp4 & Hd4 & Hq4 & Hf4) & He4 & Ht4).
    destruct r4 as [[]|e]; [|discriminate].
    inversion Hrun; subst a'.
    destruct Hmid as (? & ? & ? & ?).
    split; [repeat split; simpl; congruence|].
    exists els, main, post. split; [exact Hne|].
    split.
    { simpl. rewrite Ht4, Htrace. unfold epilogue. simpl. rewrite He4, Hfinal.
      rewrite (meta_path_same _ _ Hname Hconf), (meta_record_same _ _ Hname Hconf).
      repeat (progress (simpl; rewrite <- ?app_assoc)). reflexivity. }
    split; [exact Hturns'|]. split; [|split; [exact Hreads|exact Hagg']].
    intros el Hin Hfails. simpl. rewrite He4, Hfinal. apply (Herr el Hin Hfails).
Qed.

Lemma analyse_loop_app (xs ys : list LocalElement) :
  forall a : Analyser W,
    analyse_loop (xs ++ ys) a =
      match analyse_loop xs a with
      | (Ok _, a1) => analyse_loop ys a1
      | (Raise e, a1) => (Raise e, a1)
      end.
Proof.
  induction xs as [|x xs IH]; intros a; [reflexivity|].
  simpl app. rewrite !analyse_loop_cons.
  destruct (analyse_one x a) as [[[]|e] a1]; [apply IH|reflexivity].
Qed.

(** Nothing between the loop and the caller of [start_analysing] handles
    an exception: what the loop of a serial run raises, the run raises,
    after the flush that ends the phase; neither the post phase nor
    [write_meta] is reached. *)
Lemma raise_in_loop_aborts_run (s : Analyser W) (w1 w2 : W)
    (els : list LocalElement) (e : exn) (a2 : Analyser W) :
  in_parallel s = false ->
  pre_analyse (config s) (world s) = (Ok tt, w1) ->
  read_elements (elements_in (config s)) w1 = (Ok els, w2) ->
  els <> [] ->
  analyse_loop els (main_entry s w1 w2) = (Raise e, a2) ->
  start_analysing s = (Raise e, with_event LogsFlushed a2).
Proof.
  intros Hser Hpre Hread Hne Hloop.
  rewrite start_analysing_unfold.
  set (a0 := with_event (Logged (mode_msg s)) s).
  destruct (__pre_analyse a0) as [r1 a1] eqn:Hp.
  destruct (pre_analyse_frame _ _ _ Hp) as (_ & _ & Ha1 & Hr1).
  simpl in Ha1, Hr1. rewrite Hpre in Ha1, Hr1. simpl in Ha1, Hr1. subst r1 a1.
  unfold __analyse, disk_read_elements, analyse, bind, try_except, get, emit,
         modify, call, raise. simpl.
  rewrite Hread. simpl.
  destruct els as [|x els]; [contradiction|].
  match goal with
  | |- context [in_parallel ?st] => change (in_parallel st) with (in_parallel s)
  end.
  rewrite Hser. rewrite phase_unfold.
  unfold main_entry in Hloop. unfold a0.
  match goal with
  | |- context [analyse_loop (x :: els) ?st] =>
      change (analyse_loop (x :: els) st)
        with (analyse_loop (x :: els) (main_entry s w1 w2))
  end.
  unfold main_entry. rewrite Hloop. reflexivity.
Qed.

(** A serial run whose pre phase returned and whose input holds at least
    one element, from the loop on: the loop, the flush that ends its
    phase, the post phase, the metadata record unless [errored] is set,
    the last flush. *)
Lemma serial_run_unfold (s : Analyser W) (w1 w2 : W) (els : list LocalElement) :
  in_parallel s = false ->
  pre_analyse (config s) (world s) = (Ok tt, w1) ->
  read_elements (elements_in (config s)) w1 = (Ok els, w2) ->
  els <> [] ->
  start_analysing s =
    match analyse_loop els (main_entry s w1 w2) with
    | (Raise e, a2) => (Raise e, with_event LogsFlushed a2)
    | (Ok _, a2) =>
        match __post_analyse (with_event LogsFlushed a2) with
        | (Raise e, a3) => (Raise e, a3)
        | (Ok _, a3) =>
            if errored a3 then (Ok tt, with_event LogsFlushed a3)
            else
              match disk_write_meta (meta_path a3) (meta_record a3) a3 with
              | (Raise e, a4) => (Raise e, a4)
              | (Ok _, a4) => (Ok tt, with_event LogsFlushed a4)
              end
        end
    end.
Proof.
  intros Hser Hpre Hread Hne.
  destruct (analyse_loop els (main_entry s w1 w2)) as [rl a2] eqn:Hloop.
  destruct rl as [[]|e];
    [|exact (raise_in_loop_aborts_run s w1 w2 els e a2 Hser Hpre Hread Hne Hloop)].
  rewrite start_analysing_unfold.
  set (a0 := with_event (Logged (mode_msg s)) s).
  destruct (__pre_analyse a0) as [r1 a1] eqn:Hp.
  destruct (pre_analyse_frame _ _ _ Hp) as (_ & _ & Ha1 & Hr1).
  simpl in Ha1, Hr1. rewrite Hpre in Ha1, Hr1. simpl in Ha1, Hr1. subst r1 a1.
  assert (Hmain : __analyse
            (with_event LogsFlushed
               (with_world w1
                  (with_event PreAnalyseCalled
                     (with_event (PhaseEntered "pre-analyse") a0))))
            = (Ok tt, with_event LogsFlushed a2)).
  { unfold __analyse, disk_read_elements, analyse, bind, try_except, get, emit,
           modify, call, raise. simpl.
    rewrite Hread. simpl.
    destruct els as [|x els]; [contradiction|].
    match goal with
    | |- context [in_parallel ?st] => change (in_parallel st) with (in_parallel s)
    end.
    rewrite Hser. rewrite phase_unfold.
    unfold main_entry in Hloop. unfold a0.
    match goal with
    | |- context [analyse_loop (x :: els) ?st] =>
        change (analyse_loop (x :: els) st)
          with (analyse_loop (x :: els) (main_entry s w1 w2))
    end.
    unfold main_entry. rewrite Hloop. reflexivity. }
  rewrite Hmain. reflexivity.
Qed.

End Run.

(** * Properties of the retry and skip policy *)

Section ElementClaims.

Context {W : Type} `{Storage W} `{Hooks W} `{MTModule W}.

(** C5.  When the hook raises should-skip on an element, that attempt is
    the last one whatever the number of attempts left: the reason is
    logged, the hook is not called again, [write_element] is not called,
    [errored] keeps its value, and [__attempt_analyse] returns normally. *)
Theorem should_skip_is_terminal
    (n : nat) (el : LocalElement) (a : Analyser W) (m : string) (w' : W) :
  analyse_element el (config a) (world a) = (Raise (ElementShouldSkipError m), w') ->
  exists a',
    __attempt_analyse n el a = (Ok tt, a') /\
    trace a' = trace a ++
      [Attempted el; ErrorLogged (exn_str (ElementShouldSkipError m)) el] /\
    errored a' = errored a /\
    world a' = w'.
Proof.
  intros Hc. eexists. split.
  - apply attempt_on_skip, body_raises, Hc.
  - simpl. rewrite <- app_assoc. repeat split.
Qed.

(** C1.  When each of five attempts on an element calls for a retry (the
    hook raises should-retry, or [write_element] answers [False]), the
    turn of the loop for that element calls the hook exactly five times,
    persists nothing, logs the exhausted-retries message, sets [errored],
    returns normally, and the loop goes on with the next element. *)
Theorem exhausted_after_five_attempts
    (el : LocalElement) (rest : list LocalElement) (a : Analyser W) :
  fails_on_each_of 5 el (config a) (dest_of (name a) el)
                   (delete_local_on_write a) (world a) ->
  exists a' evs,
    analyse_one el a = (Ok tt, a') /\
    trace a' = trace a ++ DestSet (dest_of (name a) el) :: evs /\
    attempts_in evs = [el; el; el; el; el] /\
    persisted_in evs = [] /\
    In (exhausted_msg, el) (errors_in evs) /\
    errored a' = true /\
    analyse_loop (el :: rest) a = analyse_loop rest a'.
Proof.
  intros Hfail.
  destruct (analyse_one_exhausts el a Hfail)
    as (a' & evs & Hone & Ht & Hat & Hpe & Hin & Herr).
  exists a', evs. repeat split; try assumption.
  rewrite analyse_loop_cons, Hone. reflexivity.
Qed.

(** C6.  When the hook raises should-retry on exactly [k] calls, [k < 5],
    then returns a new element which [write_element] stores, the hook was
    called [k + 1] times, [write_element] was called once, stored that
    element under [dest_q] and left the storage as that call left it, and
    [errored] keeps its value. *)
Theorem retries_then_success_writes_once
    (k : nat) (el new_el : LocalElement) (a : Analyser W) (wk w1 w2 : W) :
  k < 5 ->
  raises_retry_times k el (config a) (world a) wk ->
  analyse_element el (config a) wk = (Ok (Some new_el), w1) ->
  write_element (dest_q a) new_el (delete_local_on_write a) w1 = (Ok true, w2) ->
  exists a' evs,
    __attempt_analyse 5 el a = (Ok tt, a') /\
    trace a' = trace a ++ evs /\
    attempts_in evs = repeat el (S k) /\
    writes_in evs = [(dest_q a, new_el, delete_local_on_write a)] /\
    persisted_in evs = [(dest_q a, new_el)] /\
    errored a' = errored a /\
    world a' = w2.
Proof.
  intros Hk Hretries Hc Hw.
  destruct (attempt_succeeds_after el new_el k 5 a wk w1 w2 Hk Hretries Hc Hw)
    as (a' & evs & Hrun & Ht & Hat & Hwr & Hpe & Herr & Hwo & _).
  exists a', evs. repeat split; assumption.
Qed.

(** C8 (as amended).  The hook raises, on the first attempt or after
    [k < 5] attempts that called for a retry, an exception that is neither
    should-skip nor should-retry.  The attempts before it persisted
    nothing.
    When the analyser is in development mode, or the exception is not an
    [Exception]: it leaves the loop at once, the remaining elements are
    not attempted, nothing is logged for it, and a serial run that reached
    this element raises that exception right after the flush that ends the
    phase (no post phase, no metadata record).
    When the analyser is not in development mode and the exception is an
    [Exception]: the message and the traceback are logged, nothing is
    written for the element, [errored] keeps its value and the loop goes
    on with the next element. *)
Theorem unclassified_exception_by_mode
    (k : nat) (el : LocalElement) (rest : list LocalElement) (a : Analyser W)
    (e : exn) (evs : list event) (wk w' : W) :
  unclassified e ->
  k < 5 ->
  retry_rounds k el (config a) (dest_of (name a) el) (delete_local_on_write a)
               (world a) evs wk ->
  analyse_element el (config a) wk = (Raise e, w') ->
  (attempts_in evs = repeat el k /\ persisted_in evs = []) /\
  (dev a = true \/ is_Exception e = false ->
     exists a',
       analyse_loop (el :: rest) a = (Raise e, a') /\
       trace a' = trace a ++
         DestSet (dest_of (name a) el) :: evs ++ [Attempted el] /\
       errored a' = errored a /\
       world a' = w' /\
       forall (s : Analyser W) (before : list LocalElement) (w1 w2 : W),
         in_parallel s = false ->
         pre_analyse (config s) (world s) = (Ok tt, w1) ->
         read_elements (elements_in (config s)) w1
           = (Ok (before ++ el :: rest), w2) ->
         analyse_loop before (main_entry s w1 w2) = (Ok tt, a) ->
         start_analysing s = (Raise e, with_event LogsFlushed a')) /\
  (dev a = false -> is_Exception e = true ->
     exists a',
       analyse_one el a = (Ok tt, a') /\
       trace a' = trace a ++
         DestSet (dest_of (name a) el) :: evs ++
         [Attempted el;
          ErrorLogged (exn_str e ++ ": skipping element") el;
          TracebackPrinted] /\
       errored a' = errored a /\
       world a' = w' /\
       analyse_loop (el :: rest) a = analyse_loop rest a').
Proof.
  intros Hu Hk Hrounds Hc.
  set (d := dest_of (name a) el) in *.
  set (a0 := with_dest_q d (with_event (DestSet d) a)).
  destruct (retry_rounds_peel el k 5 a0 evs wk Hk Hrounds)
    as (ak & Hpeel & Hwk & (Hn & Hcfg & Hp & Hd & Hq & Hf) & Herr & Ht & Hat & Hpe).
  change (config a0) with (config a) in Hcfg.
  change (dev a0) with (dev a) in Hd.
  change (errored a0) with (errored a) in Herr.
  assert (Htrace : trace ak = trace a ++ DestSet d :: evs).
  { rewrite Ht. simpl. rewrite <- app_assoc. reflexivity. }
  assert (Hb : attempt_body el ak = (Raise e, after_call el w' ak)).
  { apply body_raises. rewrite Hcfg, Hwk. exact Hc. }
  split; [split; assumption|].
  split.
  - intros Hmode.
    assert (Hrun : __attempt_analyse 5 el a0 = (Raise e, after_call el w' ak)).
    { rewrite Hpeel. destruct (is_Exception e) eqn:HE.
      - destruct Hmode as [Hdev|HF]; [|discriminate].
        rewrite (attempt_on_unclassified _ _ _ _ e Hu HE Hb).
        change (dev (after_call el w' ak)) with (dev ak).
        rewrite Hd, Hdev. reflexivity.
      - exact (attempt_on_base_exception _ _ _ _ e HE Hb). }
    assert (Hloop : analyse_loop (el :: rest) a = (Raise e, after_call el w' ak)).
    { rewrite analyse_loop_cons, analyse_one_unfold. cbv zeta.
      fold d a0. rewrite Hrun. reflexivity. }
    exists (after_call el w' ak). split; [exact Hloop|].
    split; [simpl; rewrite Htrace, <- app_assoc; reflexivity|].
    split; [exact Herr|]. split; [reflexivity|].
    intros s before w1 w2 Hser Hpre Hread Hbefore.
    apply (raise_in_loop_aborts_run s w1 w2 (before ++ el :: rest));
      try assumption.
    + destruct before; discriminate.
    + rewrite analyse_loop_app, Hbefore. exact Hloop.
  - intros Hprod HE.
    assert (Hrun : __attempt_analyse 5 el a0 =
              (Ok tt,
               with_event TracebackPrinted
                 (with_event (ErrorLogged (exn_str e ++ ": skipping element") el)
                    (after_call el w' ak)))).
    { rewrite Hpeel, (attempt_on_unclassified _ _ _ _ e Hu HE Hb).
      change (dev (after_call el w' ak)) with (dev ak).
      rewrite Hd, Hprod. reflexivity. }
    eexists. rewrite analyse_loop_cons, analyse_one_unfold. cbv zeta.
    fold d a0. rewrite Hrun. split; [reflexivity|]. simpl.
    rewrite Htrace, <- !app_assoc. simpl.
    split; [reflexivity|]. split; [exact Herr|]. split; reflexivity.
Qed.

End ElementClaims.

(** * What a run leaves without metadata *)

Lemma adds_no_metadata_refl {W : Type} (a : Analyser W) : adds_no_metadata a a.
Proof. exists []. rewrite app_nil_r. split; reflexivity. Qed.

Lemma adds_no_metadata_trans {W : Type} (a b c : Analyser W) :
  adds_no_metadata a b -> adds_no_metadata b c -> adds_no_metadata a c.
Proof.
  intros (e1 & H1 & M1) (e2 & H2 & M2). exists (e1 ++ e2).
  rewrite H2, H1, <- app_assoc, metas_in_app, M1, M2. split; reflexivity.
Qed.

Section MoreRun.

Context {W : Type} `{Storage W} `{Hooks W} `{MTModule W}.

Lemma flush_adds_no_metadata (a : Analyser W) :
  adds_no_metadata a (with_event LogsFlushed a).
Proof. exists [LogsFlushed]. split; reflexivity. Qed.

Lemma pre_adds_no_metadata (a : Analyser W) r a' :
  __pre_analyse a = (r, a') ->
  adds_no_metadata a a' /\ same_settings a a' /\ errored a' = errored a.
Proof.
  intros Hp. destruct (pre_analyse_frame _ _ _ Hp) as (Hs & He & Ha & _).
  split; [|split; assumption].
  subst a'. eexists. simpl. rewrite <- !app_assoc. simpl.
  split; [reflexivity|reflexivity].
Qed.

Lemma analyse_loop_frame_any (els : list LocalElement) :
  forall (a : Analyser W) r a',
    analyse_loop els a = (r, a') ->
    same_identity a a' /\ (errored a = true -> errored a' = true) /\
    adds_no_metadata a a'.
Proof.
  induction els as [|el rest IH]; intros a r a' Hloop.
  - inversion Hloop; subst. split; [repeat split|]. split; [auto|].
    apply adds_no_metadata_refl.
  - rewrite analyse_loop_cons in Hloop.
    destruct (analyse_one el a) as [r1 a1] eqn:Hone.
    pose proof (analyse_one_frame _ _ _ _ Hone)
      as ((Hn & Hc & Hp & Hd) & He & _ & _ & seg & Ht & (_ & _ & _ & Hm & _)).
    assert (Hfirst : adds_no_metadata a a1).
    { exists (DestSet (dest_of (name a) el) :: seg). split; [exact Ht|exact Hm]. }
    destruct r1 as [[]|e].
    + destruct (IH _ _ _ Hloop) as ((Hn' & Hc' & Hp' & Hd') & He' & Hrest).
      split; [repeat split; congruence|]. split; [auto|].
      eapply adds_no_metadata_trans; eassumption.
    + inversion Hloop; subst.
      split; [repeat split; assumption|]. split; [exact He|exact Hfirst].
Qed.

Lemma analyse_serial_frame_any (a : Analyser W) r a' :
  in_parallel a = false ->
  __analyse a = (r, a') ->
  same_identity a a' /\ (errored a = true -> errored a' = true) /\
  adds_no_metadata a a'.
Proof.
  intros Hser. unfold __analyse, disk_read_elements, analyse.
  unfold bind, try_except, get, emit, modify, call, raise. simpl.
  destruct (read_elements (elements_in (config a)) (world a)) as [[els|e] w1];
    simpl.
  2: { intros Hres; inversion Hres; subst. split; [repeat split|]. split; [auto|].
       eexists. simpl. split; reflexivity. }
  destruct els as [|el els].
  { intros Hres; inversion Hres; subst. split; [repeat split|]. split; [auto|].
    eexists. simpl. split; reflexivity. }
  change (in_parallel (with_world w1
            (with_event (ElementsRead (elements_in (config a))) a)))
    with (in_parallel a).
  rewrite Hser. rewrite phase_unfold.
  set (a1 := with_event (PhaseEntered "analyse") _).
  destruct (analyse_loop (el :: els) a1) as [rl a2] eqn:Hloop. simpl.
  intros Hres; inversion Hres; subst.
  destruct (analyse_loop_frame_any _ _ _ _ Hloop)
    as ((Hn & Hc & Hp & Hd) & He & Hmeta).
  split; [repeat split; assumption|]. split; [exact He|].
  apply adds_no_metadata_trans with a1.
  - eexists. unfold a1. simpl. rewrite <- !app_assoc. split; reflexivity.
  - eapply adds_no_metadata_trans; [exact Hmeta|apply flush_adds_no_metadata].
Qed.

Lemma post_adds_no_metadata (a : Analyser W) r a' :
  __post_analyse a = (r, a') ->
  adds_no_metadata a a' /\ same_settings a a' /\ errored a' = errored a.
Proof.
  intros Hp.
  destruct (post_analyse_frame _ _ _ Hp) as (Hs & He & evs & Ht & _ & (_ & Hm & _)).
  split; [|split; assumption]. exists evs. split; assumption.
Qed.

End MoreRun.

(** * Properties of the loop and of the run *)

Section RunClaims.

Context {W : Type} `{Storage W} `{Hooks W} `{MTModule W}.

(** C3 (as amended).  A loop that ran to its end is the turn of its first
    element followed by the loop over the others.  Everything the first
    turn added to the trace after the assignment of [dest_q] is [first]:
    its writes happened under the flag the loop was entered with, and the
    flag is [false] when that turn ends.  Everything the other turns added
    is [later], one segment per element: each of its writes happened under
    [false].  The flag is [false] when the loop ends. *)
Theorem local_cache_flag_cleared_after_first_element
    (el : LocalElement) (rest : list LocalElement) (a a' : Analyser W) :
  analyse_loop (el :: rest) a = (Ok tt, a') ->
  exists a1 first later,
    analyse_one el a = (Ok tt, a1) /\
    analyse_loop rest a1 = (Ok tt, a') /\
    trace a1 = trace a ++ DestSet (dest_of (name a) el) :: first /\
    trace a' = trace a1 ++ later /\
    attempt_events el (dest_of (name a) el) (delete_local_on_write a) first /\
    Forall (fun w => snd w = delete_local_on_write a) (writes_in first) /\
    delete_local_on_write a1 = false /\
    turns (dest_of (name a)) false rest later /\
    Forall (fun w => snd w = false) (writes_in later) /\
    delete_local_on_write a' = false.
Proof.
  intros Hloop. rewrite analyse_loop_cons in Hloop.
  destruct (analyse_one el a) as [r1 a1] eqn:Hone.
  destruct r1 as [[]|e]; [|discriminate].
  pose proof (analyse_one_frame _ _ _ _ Hone)
    as ((Hn & _) & _ & _ & Hf & first & Ht & Hev).
  destruct (analyse_loop_shape _ _ _ Hloop)
    as (_ & _ & _ & Hf' & later & Ht' & Hturns & _).
  rewrite Hn, Hf in Hturns.
  exists a1, first, later.
  split; [reflexivity|]. split; [exact Hloop|]. split; [exact Ht|].
  split; [exact Ht'|]. split; [exact Hev|].
  split.
  { destruct Hev as (_ & Hwr & _).
    eapply Forall_impl; [|exact Hwr]. intros w (_ & Hw); exact Hw. }
  split; [exact Hf|]. split; [exact Hturns|].
  split; [exact (turns_flags _ _ _ Hturns)|].
  rewrite Hf'. destruct rest; [exact Hf|reflexivity].
Qed.

(** C4 (as amended).  In a loop that ran to its end, [dest_q] is assigned
    once per element, in the order of the elements, each time from the
    element's own query; the assignment comes before the attempts on that
    element, which do not assign it again, and every write of the loop
    goes to the destination of one of its elements. *)
Theorem dest_q_assigned_once_per_element
    (els : list LocalElement) (a a' : Analyser W) :
  analyse_loop els a = (Ok tt, a') ->
  exists evs,
    trace a' = trace a ++ evs /\
    dests_in evs = map (dest_of (name a)) els /\
    turns (dest_of (name a)) (delete_local_on_write a) els evs /\
    Forall (fun w => exists x, In x els /\ fst (fst w) = dest_of (name a) x)
           (writes_in evs).
Proof.
  intros Hloop.
  destruct (analyse_loop_shape _ _ _ Hloop)
    as (_ & _ & _ & _ & evs & Ht & Hturns & _).
  exists evs. split; [exact Ht|].
  split; [exact (turns_dests _ _ _ _ Hturns)|].
  split; [exact Hturns|exact (turns_writes _ _ _ _ Hturns)].
Qed.

(** C7.  When the pre phase returned and reading the input queries raises
    or answers no element, [start_analysing] raises
    [InvalidAnalyserElements]; the hook [analyse_element] was never called,
    nothing was written and no metadata record was written.  This holds in
    serial and in parallel mode alike. *)
Theorem no_input_aborts_before_dispatch (a : Analyser W) (w1 w2 : W) :
  pre_analyse (config a) (world a) = (Ok tt, w1) ->
  ((exists e, read_elements (elements_in (config a)) w1 = (Raise e, w2)) \/
   read_elements (elements_in (config a)) w1 = (Ok [], w2)) ->
  exists msg a' evs,
    start_analysing a = (Raise (InvalidAnalyserElements msg), a') /\
    trace a' = trace a ++ evs /\
    attempts_in evs = [] /\ writes_in evs = [] /\ metas_in evs = [].
Proof.
  intros Hpre Hread.
  rewrite start_analysing_unfold.
  set (a0 := with_event (Logged (mode_msg a)) a).
  destruct (__pre_analyse a0) as [r1 a1] eqn:Hp.
  destruct (pre_analyse_frame _ _ _ Hp) as (_ & _ & Ha1 & Hr1).
  simpl in Ha1, Hr1. rewrite Hpre in Ha1, Hr1. simpl in Ha1, Hr1. subst r1 a1.
  unfold __analyse, disk_read_elements, bind, try_except, get, emit, modify,
         call, raise. simpl.
  destruct Hread as [(e & Hread)|Hread]; rewrite Hread; simpl;
    eexists; eexists; eexists; (split; [reflexivity|]); simpl;
    rewrite <- !app_assoc; simpl; repeat split.
Qed.

(** C2 (as amended).  In a serial run:
    - when an element exhausts its retries (each of its five attempts
      calls for a retry), wherever it stands among the input elements,
      its turn of the loop returns with [errored] set and the run goes on:
      the loop over the remaining elements, then the flush and the post
      phase; the run ends early only if one of those raises, and returns
      otherwise.  However it ends, it ends with [errored] set and has not
      called [write_meta], whatever the other elements persisted;
    - a run that returned has written the metadata record exactly when
      [errored] is unset at the end, once, under the path of
      [get_selector]. *)
Theorem exhausted_element_suppresses_metadata (a : Analyser W) :
  in_parallel a = false ->
  (forall (before : list LocalElement) (el : LocalElement)
          (rest : list LocalElement) (w1 w2 : W) (ab : Analyser W),
     pre_analyse (config a) (world a) = (Ok tt, w1) ->
     read_elements (elements_in (config a)) w1
       = (Ok (before ++ el :: rest), w2) ->
     analyse_loop before (main_entry a w1 w2) = (Ok tt, ab) ->
     fails_on_each_of 5 el (config ab) (dest_of (name ab) el)
                      (delete_local_on_write ab) (world ab) ->
     exists a1,
       analyse_one el ab = (Ok tt, a1) /\
       errored a1 = true /\
       start_analysing a =
         match analyse_loop rest a1 with
         | (Raise e, a2) => (Raise e, with_event LogsFlushed a2)
         | (Ok _, a2) =>
             match __post_analyse (with_event LogsFlushed a2) with
             | (Raise e, a3) => (Raise e, a3)
             | (Ok _, a3) => (Ok tt, with_event LogsFlushed a3)
             end
         end /\
       forall r a',
         start_analysing a = (r, a') ->
         errored a' = true /\ adds_no_metadata a a') /\
  (forall a',
     start_analysing a = (Ok tt, a') ->
     exists evs,
       trace a' = trace a ++ evs /\
       metas_in evs = (if errored a' then [] else [meta_path a])).
Proof.
  intros Hser. split.
  - intros before el rest w1 w2 ab Hpre Hread Hbefore Hfail.
    destruct (analyse_one_exhausts el ab Hfail)
      as (a1 & evs1 & Hone & _ & _ & _ & _ & Herr1).
    exists a1. split; [exact Hone|]. split; [exact Herr1|].
    assert (Hne : before ++ el :: rest <> []) by (destruct before; discriminate).
    assert (Hwhole : analyse_loop (before ++ el :: rest) (main_entry a w1 w2)
                     = analyse_loop rest a1).
    { rewrite analyse_loop_app, Hbefore, analyse_loop_cons, Hone. reflexivity. }
    pose proof (serial_run_unfold a w1 w2 _ Hser Hpre Hread Hne) as Hrun.
    destruct (analyse_loop rest a1) as [rl a2] eqn:Hrest.
    destruct (analyse_loop_frame_any _ _ _ _ Hrest) as (_ & Herr2 & _).
    specialize (Herr2 Herr1).
    destruct (analyse_loop_frame_any _ _ _ _ Hwhole) as (_ & _ & Mloop).
    assert (Mentry : adds_no_metadata a (main_entry a w1 w2)).
    { eexists. unfold main_entry. simpl. rewrite <- !app_assoc. simpl.
      split; reflexivity. }
    pose proof (adds_no_metadata_trans _ _ _ Mentry Mloop) as M2.
    pose proof (adds_no_metadata_trans _ _ _ M2 (flush_adds_no_metadata a2)) as M2'.
    rewrite Hwhole in Hrun.
    destruct rl as [[]|e].
    + destruct (__post_analyse (with_event LogsFlushed a2)) as [r3 a3] eqn:Hpost.
      destruct (post_adds_no_metadata _ _ _ Hpost) as (M3 & _ & E3).
      assert (Herr3 : errored a3 = true) by (rewrite E3; exact Herr2).
      pose proof (adds_no_metadata_trans _ _ _ M2' M3) as M03.
      destruct r3 as [[]|e].
      * rewrite Herr3 in Hrun. split; [exact Hrun|].
        intros r a' Hres. rewrite Hrun in Hres. inversion Hres; subst.
        split; [exact Herr3|].
        eapply adds_no_metadata_trans; [exact M03|apply flush_adds_no_metadata].
      * split; [exact Hrun|].
        intros r a' Hres. rewrite Hrun in Hres. inversion Hres; subst.
        split; [exact Herr3|exact M03].
    + split; [exact Hrun|].
      intros r a' Hres. rewrite Hrun in Hres. inversion Hres; subst.
      split; [exact Herr2|exact M2'].
  - intros a' Hrun.
    destruct (serial_run_shape _ _ Hser Hrun)
      as (_ & els & main & post & _ & Ht & Hturns & _ & _ & (_ & Hm & _ & _)).
    destruct (turns_quiet _ _ _ _ Hturns) as (Hmain & _).
    exists (prologue a ++ main ++ [LogsFlushed] ++ post ++ epilogue a a').
    split; [exact Ht|].
    rewrite !metas_in_app, Hmain, Hm. unfold epilogue.
    destruct (errored a'); reflexivity.
Qed.


End RunClaims.

(** * The properties on the concrete analyser *)

(** The worked example of the specification (8): one input query, three
    elements under it, two transformed and one skipped.  Two elements are
    written under "selA/frames", one skip is logged, [errored] stays unset
    and the metadata record carries the declared output type. *)
Example three_elements_one_skipped :
  let a := Demo.fresh ["selA"] false Demo.three_under_selA in
  let a' := snd (start_analysing a) in
  fst (start_analysing a) = Ok tt /\
  persisted_in (trace a') =
    [("selA/frames", Demo.el "v1.out" "selA");
     ("selA/frames", Demo.el "v3.out" "selA")] /\
  errors_in (trace a') = [("not a video", Demo.el "skip" "selA")] /\
  attempts_in (trace a') =
    [Demo.el "v1" "selA"; Demo.el "skip" "selA"; Demo.el "v3" "selA"] /\
  errored a' = false /\
  map (fun ev => match ev with
                 | MetaWritten path m => Some (path, meta_etype m)
                 | _ => None
                 end)
      (filter (fun ev => match ev with MetaWritten _ _ => true | _ => false end)
              (trace a'))
    = [Some ("selA/frames", "Any")].
Proof. vm_compute. repeat split. Qed.

(** An element whose new element the concrete storage refuses every
    time: five calls of the hook, five refused writes, nothing persisted,
    the exhausted-retries message, [errored] set. *)
Example unwritable_element_exhausts :
  let x := Demo.el "unwritable" "selA" in
  let a := Demo.fresh ["selA"] false [("selA", Demo.el "unwritable" "selA")] in
  let a' := snd (analyse_one x a) in
  fst (analyse_one x a) = Ok tt /\
  attempts_in (trace a') = [x; x; x; x; x] /\
  writes_in (trace a') = repeat ("selA/frames", x, true) 5 /\
  persisted_in (trace a') = [] /\
  last (errors_in (trace a')) (EmptyString, x) = (exhausted_msg, x) /\
  errored a' = true.
Proof. vm_compute. repeat split. Qed.

(** An element the concrete hook skips, with five attempts left. *)
Lemma should_skip_is_terminal_witness :
  let el := Demo.el "skip" "selA" in
  let a := Demo.fresh ["selA"] false Demo.three_under_selA in
  analyse_element el (config a) (world a) =
    (Raise (ElementShouldSkipError "not a video"),
     Demo.mkWorld 1 Demo.three_under_selA) /\
  exists a',
    __attempt_analyse 5 el a = (Ok tt, a') /\
    trace a' = trace a ++
      [Attempted el; ErrorLogged (exn_str (ElementShouldSkipError "not a video")) el] /\
    errored a' = errored a /\
    world a' = Demo.mkWorld 1 Demo.three_under_selA.
Proof.
  split; [reflexivity|].
  apply (should_skip_is_terminal 5 (Demo.el "skip" "selA")
           (Demo.fresh ["selA"] false Demo.three_under_selA)
           "not a video" (Demo.mkWorld 1 Demo.three_under_selA)).
  reflexivity.
Defined.

(** An element on which the concrete hook raises should-retry every time. *)
Lemma exhausted_after_five_attempts_witness :
  let el := Demo.el "bad" "selA" in
  let rest := [Demo.el "v1" "selA"] in
  let a := Demo.fresh ["selA"] false Demo.good_and_bad in
  exists a' evs,
    analyse_one el a = (Ok tt, a') /\
    trace a' = trace a ++ DestSet (dest_of (name a) el) :: evs /\
    attempts_in evs = [el; el; el; el; el] /\
    persisted_in evs = [] /\
    In (exhausted_msg, el) (errors_in evs) /\
    errored a' = true /\
    analyse_loop (el :: rest) a = analyse_loop rest a'.
Proof.
  apply (exhausted_after_five_attempts (Demo.el "bad" "selA")
           [Demo.el "v1" "selA"]
           (Demo.fresh ["selA"] false Demo.good_and_bad)).
  simpl.
  repeat (eexists; split; [left; exists "timeout"; reflexivity|]).
  exact I.
Defined.

(** An element on which the concrete hook raises should-retry twice, then
    returns a new element that is stored. *)
Lemma retries_then_success_writes_once_witness :
  let el := Demo.el "flaky" "selA" in
  let a := with_dest_q "selA/frames"
             (Demo.fresh ["selA"] false [("selA", Demo.el "flaky" "selA")]) in
  exists a' evs,
    __attempt_analyse 5 el a = (Ok tt, a') /\
    trace a' = trace a ++ evs /\
    attempts_in evs = repeat el 3 /\
    writes_in evs = [(dest_q a, Demo.derived el, delete_local_on_write a)] /\
    persisted_in evs = [(dest_q a, Demo.derived el)] /\
    errored a' = errored a /\
    world a' = Demo.mkWorld 3 [("selA", Demo.el "flaky" "selA");
                               ("selA/frames", Demo.derived el)].
Proof.
  apply (retries_then_success_writes_once 2 (Demo.el "flaky" "selA")
           (Demo.derived (Demo.el "flaky" "selA"))
           (with_dest_q "selA/frames"
              (Demo.fresh ["selA"] false [("selA", Demo.el "flaky" "selA")]))
           (Demo.mkWorld 2 [("selA", Demo.el "flaky" "selA")])
           (Demo.mkWorld 3 [("selA", Demo.el "flaky" "selA")])
           (Demo.mkWorld 3 [("selA", Demo.el "flaky" "selA");
                            ("selA/frames", Demo.derived (Demo.el "flaky" "selA"))])).
  - lia.
  - simpl. exists "timeout". eexists. split; [reflexivity|].
    exists "timeout". eexists. split; reflexivity.
  - reflexivity.
  - reflexivity.
Defined.

(** Three elements; on the second one the hook of the fourth analyser
    times out once and then divides by zero, or is interrupted.  In
    development mode the division by zero ends the run; outside it the
    element is given up and the loop goes on; the interrupt ends the run
    outside development mode too. *)
Lemma unclassified_exception_by_mode_witness :
  let e := OtherException "division by zero" in
  let stop := BaseExceptionOnly "KeyboardInterrupt" in
  let evs := [Attempted Stormy.late;
              ErrorLogged (@exn_str Stormy.World _ (ElementShouldRetryError "timeout"))
                          Stormy.late] in
  (let s := Stormy.fresh ["selA"] true Stormy.late_in_the_middle in
   let a := snd (analyse_loop [Stormy.v1] (main_entry s (world s) (world s))) in
   exists a',
     analyse_loop [Stormy.late; Stormy.v3] a = (Raise e, a') /\
     trace a' = trace a ++
       DestSet (@dest_of Stormy.World _ (name a) Stormy.late) :: evs ++
       [Attempted Stormy.late] /\
     errored a' = errored a /\
     world a' = Stormy.mkWorld 3
                 (Stormy.late_in_the_middle ++
                  [("selA/frames", Demo.derived Stormy.v1)]) /\
     start_analysing s = (Raise e, with_event LogsFlushed a')) /\
  (let s := Stormy.fresh ["selA"] false Stormy.late_in_the_middle in
   let a := snd (analyse_loop [Stormy.v1] (main_entry s (world s) (world s))) in
   exists a',
     analyse_one Stormy.late a = (Ok tt, a') /\
     trace a' = trace a ++
       DestSet (@dest_of Stormy.World _ (name a) Stormy.late) :: evs ++
       [Attempted Stormy.late;
        ErrorLogged (@exn_str Stormy.World _ e ++ ": skipping element") Stormy.late;
        TracebackPrinted] /\
     errored a' = errored a /\
     world a' = Stormy.mkWorld 3
                 (Stormy.late_in_the_middle ++
                  [("selA/frames", Demo.derived Stormy.v1)]) /\
     analyse_loop [Stormy.late; Stormy.v3] a = analyse_loop [Stormy.v3] a') /\
  (let s := Stormy.fresh ["selA"] false Stormy.interrupt_in_the_middle in
   let a := snd (analyse_loop [Stormy.v1] (main_entry s (world s) (world s))) in
   exists a',
     analyse_loop [Stormy.interrupt; Stormy.v3] a = (Raise stop, a') /\
     trace a' = trace a ++
       [DestSet (@dest_of Stormy.World _ (name a) Stormy.interrupt);
        Attempted Stormy.interrupt] /\
     errored a' = errored a /\
     world a' = Stormy.mkWorld 2
                 (Stormy.interrupt_in_the_middle ++
                  [("selA/frames", Demo.derived Stormy.v1)]) /\
     start_analysing s = (Raise stop, with_event LogsFlushed a')).
Proof.
  cbv zeta.
  set (e := OtherException "division by zero").
  set (stop := BaseExceptionOnly "KeyboardInterrupt").
  set (evs := [Attempted Stormy.late; ErrorLogged _ Stormy.late]).
  split; [|split].
  - set (s := Stormy.fresh ["selA"] true Stormy.late_in_the_middle).
    set (a := snd (analyse_loop [Stormy.v1] (main_entry s (world s) (world s)))).
    set (wk := Stormy.mkWorld 2
                 (Stormy.late_in_the_middle ++
                  [("selA/frames", Demo.derived Stormy.v1)])).
    set (w' := Stormy.mkWorld 3
                 (Stormy.late_in_the_middle ++
                  [("selA/frames", Demo.derived Stormy.v1)])).
    assert (Hfirst : analyse_element Stormy.late (config a) (world a)
                     = (Raise (ElementShouldRetryError "timeout"), wk))
      by (vm_compute; reflexivity).
    assert (Hrounds : retry_rounds 1 Stormy.late (config a)
                        (dest_of (name a) Stormy.late)
                        (delete_local_on_write a) (world a) evs wk).
    { exists evs, wk, []. split; [|split; [split; reflexivity|reflexivity]].
      left. exists "timeout". split; [exact Hfirst|reflexivity]. }
    assert (Hc : analyse_element Stormy.late (config a) wk = (Raise e, w'))
      by (vm_compute; reflexivity).
    assert (Hdev : dev a = true) by (vm_compute; reflexivity).
    assert (Hbefore : analyse_loop [Stormy.v1] (main_entry s (world s) (world s))
                      = (Ok tt, a))
      by (vm_compute; reflexivity).
    assert (Hread : read_elements (elements_in (config s)) (world s)
                    = (Ok ([Stormy.v1] ++ Stormy.late :: [Stormy.v3]), world s))
      by (vm_compute; reflexivity).
    destruct (unclassified_exception_by_mode 1 Stormy.late [Stormy.v3] a e evs
                wk w' I ltac:(lia) Hrounds Hc)
      as (_ & Hstop & _).
    destruct (Hstop (or_introl Hdev)) as (a' & Hloop & Ht & He & Hw & Hrun).
    exists a'. split; [exact Hloop|]. split; [exact Ht|]. split; [exact He|].
    split; [exact Hw|].
    exact (Hrun s [Stormy.v1] (world s) (world s) eq_refl eq_refl Hread Hbefore).
  - set (s := Stormy.fresh ["selA"] false Stormy.late_in_the_middle).
    set (a := snd (analyse_loop [Stormy.v1] (main_entry s (world s) (world s)))).
    set (wk := Stormy.mkWorld 2
                 (Stormy.late_in_the_middle ++
                  [("selA/frames", Demo.derived Stormy.v1)])).
    set (w' := Stormy.mkWorld 3
                 (Stormy.late_in_the_middle ++
                  [("selA/frames", Demo.derived Stormy.v1)])).
    assert (Hfirst : analyse_element Stormy.late (config a) (world a)
                     = (Raise (ElementShouldRetryError "timeout"), wk))
      by (vm_compute; reflexivity).
    assert (Hrounds : retry_rounds 1 Stormy.late (config a)
                        (dest_of (name a) Stormy.late)
                        (delete_local_on_write a) (world a) evs wk).
    { exists evs, wk, []. split; [|split; [split; reflexivity|reflexivity]].
      left. exists "timeout". split; [exact Hfirst|reflexivity]. }
    assert (Hc : analyse_element Stormy.late (config a) wk = (Raise e, w'))
      by (vm_compute; reflexivity).
    assert (Hprod : dev a = false) by (vm_compute; reflexivity).
    destruct (unclassified_exception_by_mode 1 Stormy.late [Stormy.v3] a e evs
                wk w' I ltac:(lia) Hrounds Hc)
      as (_ & _ & Hlogged).
    exact (Hlogged Hprod eq_refl).
  - set (s := Stormy.fresh ["selA"] false Stormy.interrupt_in_the_middle).
    set (a := snd (analyse_loop [Stormy.v1] (main_entry s (world s) (world s)))).
    set (w' := Stormy.mkWorld 2
                 (Stormy.interrupt_in_the_middle ++
                  [("selA/frames", Demo.derived Stormy.v1)])).
    assert (Hrounds : retry_rounds 0 Stormy.interrupt (config a)
                        (dest_of (name a) Stormy.interrupt)
                        (delete_local_on_write a) (world a) [] (world a))
      by (split; reflexivity).
    assert (Hc : analyse_element Stormy.interrupt (config a) (world a)
                 = (Raise stop, w'))
      by (vm_compute; reflexivity).
    assert (Hbefore : analyse_loop [Stormy.v1] (main_entry s (world s) (world s))
                      = (Ok tt, a))
      by (vm_compute; reflexivity).
    assert (Hread : read_elements (elements_in (config s)) (world s)
                    = (Ok ([Stormy.v1] ++ Stormy.interrupt :: [Stormy.v3]), world s))
      by (vm_compute; reflexivity).
    destruct (unclassified_exception_by_mode 0 Stormy.interrupt [Stormy.v3] a stop
                [] (world a) w' I (Nat.lt_0_succ 4) Hrounds Hc)
      as (_ & Hstop & _).
    destruct (Hstop (or_intror eq_refl)) as (a' & Hloop & Ht & He & Hw & Hrun).
    exists a'. split; [exact Hloop|]. split; [exact Ht|]. split; [exact He|].
    split; [exact Hw|].
    exact (Hrun s [Stormy.v1] (world s) (world s) eq_refl eq_refl Hread Hbefore).
Defined.

(** A run whose input query cannot be read. *)
Lemma no_input_aborts_before_dispatch_witness :
  let a := Demo.fresh ["corrupted"] false Demo.good_and_bad in
  exists msg a' evs,
    start_analysing a = (Raise (InvalidAnalyserElements msg), a') /\
    trace a' = trace a ++ evs /\
    attempts_in evs = [] /\ writes_in evs = [] /\ metas_in evs = [].
Proof.
  apply (no_input_aborts_before_dispatch
           (Demo.fresh ["corrupted"] false Demo.good_and_bad)
           (Demo.mkWorld 0 Demo.good_and_bad) (Demo.mkWorld 0 Demo.good_and_bad)).
  - reflexivity.
  - left. exists (OtherException "storage corrupted"). reflexivity.
Defined.

(** A run over three elements, the second of which exhausts its
    retries. *)
Lemma exhausted_element_suppresses_metadata_witness :
  let v1 := Demo.el "v1" "selA" in
  let bad := Demo.el "bad" "selA" in
  let v3 := Demo.el "v3" "selA" in
  let a := Demo.fresh ["selA"] false
             [("selA", v1); ("selA", bad); ("selA", v3)] in
  let ab := snd (analyse_loop [v1] (main_entry a (world a) (world a))) in
  (exists a1,
     analyse_one bad ab = (Ok tt, a1) /\
     errored a1 = true /\
     start_analysing a =
       match analyse_loop [v3] a1 with
       | (Raise e, a2) => (Raise e, with_event LogsFlushed a2)
       | (Ok _, a2) =>
           match __post_analyse (with_event LogsFlushed a2) with
           | (Raise e, a3) => (Raise e, a3)
           | (Ok _, a3) => (Ok tt, with_event LogsFlushed a3)
           end
       end /\
     forall r a',
       start_analysing a = (r, a') ->
       errored a' = true /\ adds_no_metadata a a') /\
  (let a' := snd (start_analysing a) in
   exists evs,
     trace a' = trace a ++ evs /\
     metas_in evs = (if errored a' then [] else [meta_path a])).
Proof.
  cbv zeta.
  set (v1 := Demo.el "v1" "selA").
  set (bad := Demo.el "bad" "selA").
  set (v3 := Demo.el "v3" "selA").
  set (a := Demo.fresh ["selA"] false [("selA", v1); ("selA", bad); ("selA", v3)]).
  set (ab := snd (analyse_loop [v1] (main_entry a (world a) (world a)))).
  assert (Hread : read_elements (elements_in (config a)) (world a)
                  = (Ok ([v1] ++ bad :: [v3]), world a))
    by (vm_compute; reflexivity).
  assert (Hbefore : analyse_loop [v1] (main_entry a (world a) (world a))
                    = (Ok tt, ab))
    by (vm_compute; reflexivity).
  assert (Hfails : fails_on_each_of 5 bad (config ab) (dest_of (name ab) bad)
                     (delete_local_on_write ab) (world ab)).
  { apply always_fails_each. intros dest flag w. eexists. left.
    exists "timeout". reflexivity. }
  assert (Hrun : start_analysing a = (Ok tt, snd (start_analysing a)))
    by (vm_compute; reflexivity).
  destruct (exhausted_element_suppresses_metadata a eq_refl) as (Hfailed & Hguard).
  split.
  - exact (Hfailed [v1] bad [v3] (world a) (world a) ab eq_refl Hread Hbefore Hfails).
  - exact (Hguard _ Hrun).
Defined.

(** A loop over three elements that are all stored. *)
Lemma local_cache_flag_cleared_after_first_element_witness :
  let el := Demo.el "v1" "selA" in
  let rest := [Demo.el "v2" "selA"; Demo.el "v3" "selA"] in
  let a := Demo.fresh ["selA"] false Demo.three_good in
  let a' := snd (analyse_loop (el :: rest) a) in
  exists a1 first later,
    analyse_one el a = (Ok tt, a1) /\
    analyse_loop rest a1 = (Ok tt, a') /\
    trace a1 = trace a ++ DestSet (dest_of (name a) el) :: first /\
    trace a' = trace a1 ++ later /\
    attempt_events el (dest_of (name a) el) (delete_local_on_write a) first /\
    Forall (fun w => snd w = delete_local_on_write a) (writes_in first) /\
    delete_local_on_write a1 = false /\
    turns (dest_of (name a)) false rest later /\
    Forall (fun w => snd w = false) (writes_in later) /\
    delete_local_on_write a' = false.
Proof.
  apply (local_cache_flag_cleared_after_first_element
           (Demo.el "v1" "selA")
           [Demo.el "v2" "selA"; Demo.el "v3" "selA"]
           (Demo.fresh ["selA"] false Demo.three_good)).
  vm_compute. reflexivity.
Defined.

(** A loop over two elements of two selectors. *)
Lemma dest_q_assigned_once_per_element_witness :
  let els := [Demo.el "v1" "selA"; Demo.el "v2" "selB"] in
  let a := Demo.fresh ["selA"; "selB"] false Demo.two_selectors in
  let a' := snd (analyse_loop els a) in
  exists evs,
    trace a' = trace a ++ evs /\
    dests_in evs = map (dest_of (name a)) els /\
    turns (dest_of (name a)) (delete_local_on_write a) els evs /\
    Forall (fun w => exists x, In x els /\ fst (fst w) = dest_of (name a) x)
           (writes_in evs).
Proof.
  apply (dest_q_assigned_once_per_element
           [Demo.el "v1" "selA"; Demo.el "v2" "selB"]
           (Demo.fresh ["selA"; "selB"] false Demo.two_selectors)).
  vm_compute. reflexivity.
Defined.


(** * Where the specification and the code part *)

(** C2, counterexample.  Two elements under one selector: the first is
    transformed and stored, the second calls for a retry on each of its
    five attempts.  The run returns, one element is persisted, [errored]
    is set and no metadata record is written. *)
Lemma failed_element_suppresses_metadata :
  let a := Demo.fresh ["selA"] false Demo.good_and_bad in
  let a' := snd (start_analysing a) in
  start_analysing a = (Ok tt, a') /\
  persisted_in (trace a') = [("selA/frames", Demo.el "v1.out" "selA")] /\
  errored a' = true /\
  metas_in (trace a') = [] /\
  ~ partial_success_writes_metadata a.
Proof.
  cbv zeta.
  set (a := Demo.fresh ["selA"] false Demo.good_and_bad).
  assert (Hrun : start_analysing a = (Ok tt, snd (start_analysing a)))
    by (vm_compute; reflexivity).
  assert (Hpers : persisted_in (trace (snd (start_analysing a)))
                  = [("selA/frames", Demo.el "v1.out" "selA")])
    by (vm_compute; reflexivity).
  assert (Herr : errored (snd (start_analysing a)) = true)
    by (vm_compute; reflexivity).
  assert (Hmetas : metas_in (trace (snd (start_analysing a))) = [])
    by (vm_compute; reflexivity).
  assert (Htrace : trace (snd (start_analysing a))
                   = trace a ++ trace (snd (start_analysing a)))
    by (vm_compute; reflexivity).
  repeat (split; [assumption|]).
  intros Hclaim.
  apply (Hclaim _ _ Hrun Htrace); [|exact Hmetas].
  rewrite Hpers. discriminate.
Qed.

(** C3, counterexample.  Three elements, all stored, the flag set on
    entry: the first write happens under [true], the second and the third
    under [false], and the flag is still [false] after the loop. *)
Lemma flag_cleared_early_and_not_restored :
  let els := [Demo.el "v1" "selA"; Demo.el "v2" "selA"; Demo.el "v3" "selA"] in
  let a := Demo.fresh ["selA"] false Demo.three_good in
  let a' := snd (analyse_loop els a) in
  analyse_loop els a = (Ok tt, a') /\
  delete_local_on_write a = true /\
  map snd (writes_in (trace a')) = [true; false; false] /\
  delete_local_on_write a' = false /\
  ~ flag_cleared_for_last_write_only a els.
Proof.
  cbv zeta.
  set (els := [Demo.el "v1" "selA"; Demo.el "v2" "selA"; Demo.el "v3" "selA"]).
  set (a := Demo.fresh ["selA"] false Demo.three_good).
  assert (Hrun : analyse_loop els a = (Ok tt, snd (analyse_loop els a)))
    by (vm_compute; reflexivity).
  assert (Hentry : delete_local_on_write a = true) by reflexivity.
  assert (Hflags : map snd (writes_in (trace (snd (analyse_loop els a))))
                   = [true; false; false])
    by (vm_compute; reflexivity).
  assert (Hexit : delete_local_on_write (snd (analyse_loop els a)) = false)
    by (vm_compute; reflexivity).
  assert (Htrace : trace (snd (analyse_loop els a))
                   = trace a ++ trace (snd (analyse_loop els a)))
    by (vm_compute; reflexivity).
  repeat (split; [assumption|]).
  intros Hclaim.
  destruct (Hclaim _ _ Hrun Htrace) as (_ & _ & Hrestored).
  rewrite Hexit, Hentry in Hrestored. discriminate.
Qed.

(** C4, counterexample.  Two elements from two selectors: [dest_q] is
    assigned twice, to two different values, the second time after the
    first element was attempted and written. *)
Lemma dest_q_reassigned_between_elements :
  let els := [Demo.el "v1" "selA"; Demo.el "v2" "selB"] in
  let a := Demo.fresh ["selA"; "selB"] false Demo.two_selectors in
  let a' := snd (analyse_loop els a) in
  analyse_loop els a = (Ok tt, a') /\
  trace a' =
    [DestSet "selA/frames"; Attempted (Demo.el "v1" "selA");
     Written "selA/frames" (Demo.el "v1.out" "selA") true (Ok true);
     DestSet "selB/frames"; Attempted (Demo.el "v2" "selB");
     Written "selB/frames" (Demo.el "v2.out" "selB") false (Ok true)] /\
  ~ dest_q_written_once_per_run a els.
Proof.
  cbv zeta.
  set (els := [Demo.el "v1" "selA"; Demo.el "v2" "selB"]).
  set (a := Demo.fresh ["selA"; "selB"] false Demo.two_selectors).
  assert (Hrun : analyse_loop els a = (Ok tt, snd (analyse_loop els a)))
    by (vm_compute; reflexivity).
  assert (Hevs : trace (snd (analyse_loop els a)) =
    [DestSet "selA/frames"; Attempted (Demo.el "v1" "selA");
     Written "selA/frames" (Demo.el "v1.out" "selA") true (Ok true);
     DestSet "selB/frames"; Attempted (Demo.el "v2" "selB");
     Written "selB/frames" (Demo.el "v2.out" "selB") false (Ok true)])
    by (vm_compute; reflexivity).
  assert (Htrace : trace (snd (analyse_loop els a))
                   = trace a ++ trace (snd (analyse_loop els a)))
    by (vm_compute; reflexivity).
  repeat (split; [assumption|]).
  intros Hclaim.
  destruct (Hclaim _ _ Hrun Htrace) as (d & rest & Hshape & Hdests & _).
  rewrite Hevs in Hshape. inversion Hshape; subst rest. discriminate.
Qed.

(** C8, counterexample.  Outside development mode, three elements; the
    hook is interrupted on the second one.  The interrupt is neither
    should-skip nor should-retry, yet it leaves the loop: nothing is
    logged for it, the third element is never attempted and the run
    raises. *)
Lemma interrupt_stops_production_run :
  let s := Stormy.fresh ["selA"] false Stormy.interrupt_in_the_middle in
  let a := snd (analyse_loop [Stormy.v1] (main_entry s (world s) (world s))) in
  let stop := BaseExceptionOnly "KeyboardInterrupt" in
  dev a = false /\
  unclassified stop /\
  fst (analyse_element Stormy.interrupt (config a) (world a)) = Raise stop /\
  fst (analyse_one Stormy.interrupt a) = Raise stop /\
  errors_in (trace (snd (analyse_one Stormy.interrupt a))) = [] /\
  fst (start_analysing s) = Raise stop /\
  attempts_in (trace (snd (start_analysing s))) = [Stormy.v1; Stormy.interrupt] /\
  ~ unclassified_never_stops_production a Stormy.interrupt [Stormy.v3].
Proof.
  cbv zeta.
  set (s := Stormy.fresh ["selA"] false Stormy.interrupt_in_the_middle).
  set (a := snd (analyse_loop [Stormy.v1] (main_entry s (world s) (world s)))).
  set (stop := BaseExceptionOnly "KeyboardInterrupt").
  assert (Hprod : dev a = false) by (vm_compute; reflexivity).
  assert (Hu : unclassified stop) by exact I.
  assert (Hhook : fst (analyse_element Stormy.interrupt (config a) (world a))
                  = Raise stop)
    by (vm_compute; reflexivity).
  assert (Hone : fst (analyse_one Stormy.interrupt a) = Raise stop)
    by (vm_compute; reflexivity).
  assert (Hlog : errors_in (trace (snd (analyse_one Stormy.interrupt a))) = [])
    by (vm_compute; reflexivity).
  assert (Hrun : fst (start_analysing s) = Raise stop)
    by (vm_compute; reflexivity).
  assert (Hat : attempts_in (trace (snd (start_analysing s)))
                = [Stormy.v1; Stormy.interrupt])
    by (vm_compute; reflexivity).
  assert (Hc : analyse_element Stormy.interrupt (config a) (world a)
               = (Raise stop,
                  snd (analyse_element Stormy.interrupt (config a) (world a))))
    by (vm_compute; reflexivity).
  repeat (split; [assumption|]).
  intros Hclaim.
  destruct (Hclaim stop _ Hu Hprod Hc) as (a' & Hreturned & _).
  rewrite Hreturned in Hone. discriminate.
Qed.


(** * More on the attempts on one element *)

Section MoreAttempt.

Context {W : Type} `{Storage W} `{Hooks W} `{MTModule W}.

(** One pass through the [try] block: one call of the hook, at most one
    call of [write_element], and nothing is persisted unless the block
    returns. *)
Lemma body_counts (el : LocalElement) (a : Analyser W) r a1 :
  attempt_body el a = (r, a1) ->
  same_settings a a1 /\ errored a1 = errored a /\
  exists evs, trace a1 = trace a ++ evs /\
    attempts_in evs = [el] /\
    List.length (writes_in evs) <= 1 /\
    List.length (persisted_in evs) <= 1 /\
    (r = Ok tt \/ persisted_in evs = []) /\
    errors_in evs = [].
Proof.
  intros Hb.
  destruct (analyse_element el (config a) (world a)) as [[[new_el|]|e] w1] eqn:Hc.
  - destruct (write_element (dest_q a) new_el (delete_local_on_write a) w1)
      as [rw w2] eqn:Hw.
    rewrite (body_writes _ _ _ _ _ _ Hc Hw) in Hb. inversion Hb; subst; clear Hb.
    split; [repeat split|]. split; [reflexivity|].
    eexists; split; [simpl; rewrite <- app_assoc; reflexivity|].
    destruct rw as [[|]|e]; simpl; repeat split; auto.
  - rewrite (body_returns_none _ _ _ Hc) in Hb. inversion Hb; subst; clear Hb.
    split; [repeat split|]. split; [reflexivity|].
    eexists; split; [simpl; reflexivity|]. simpl. repeat split; auto.
  - rewrite (body_raises _ _ _ _ Hc) in Hb. inversion Hb; subst; clear Hb.
    split; [repeat split|]. split; [reflexivity|].
    eexists; split; [simpl; reflexivity|]. simpl. repeat split; auto.
Qed.

Lemma attempt_counts (el : LocalElement) (n : nat) :
  forall (a : Analyser W) r a',
    __attempt_analyse n el a = (r, a') ->
    exists evs k,
      trace a' = trace a ++ evs /\
      attempts_in evs = repeat el k /\
      1 <= k <= Nat.max 1 n /\
      List.length (writes_in evs) <= k /\
      List.length (persisted_in evs) <= 1 /\
      (persisted_in evs <> [] -> r = Ok tt).
Proof.
  induction n as [|n IH]; intros a r a' Hrun;
    destruct (attempt_body el a) as [rb a1] eqn:Hb;
    pose proof (body_counts _ _ _ _ Hb)
      as (Hs & He & evs & Ht & Hat & Hwr & Hpe & Hok & Her);
    destruct rb as [[]|[m|m|m|m|m]].
  all: try (rewrite (attempt_on_ok _ _ _ _ Hb) in Hrun;
            inversion Hrun; subst; clear Hrun;
            exists evs, 1; repeat split; auto; lia).
  all: try (rewrite (attempt_on_skip _ _ _ _ _ Hb) in Hrun;
            inversion Hrun; subst; clear Hrun; simpl;
            destruct Hok as [Hok|Hok]; [discriminate|];
            exists (evs ++ [ErrorLogged (exn_str (ElementShouldSkipError m)) el]), 1;
            rewrite Ht, <- app_assoc, attempts_in_app, writes_in_app,
                    persisted_in_app, Hat, Hok; simpl;
            rewrite app_nil_r; repeat split; auto; try lia; congruence).
  all: try (match type of Hb with
            | _ = (Raise ?e, _) =>
                rewrite (attempt_on_unclassified _ _ _ _ e I eq_refl Hb) in Hrun
            end;
            destruct Hok as [Hok|Hok]; [discriminate|];
            destruct (dev a1); inversion Hrun; subst; clear Hrun; simpl;
            [ exists evs, 1; rewrite Hok; repeat split; auto; try lia; congruence
            | eexists; exists 1; rewrite Ht, <- ?app_assoc; simpl;
              (split; [reflexivity|]);
              rewrite attempts_in_app, writes_in_app, persisted_in_app, Hat, Hok;
              simpl; rewrite app_nil_r; repeat split; auto; try lia; congruence ]).
  all: try (match type of Hb with
            | _ = (Raise ?e, _) =>
                rewrite (attempt_on_base_exception _ _ _ _ e eq_refl Hb) in Hrun
            end;
            destruct Hok as [Hok|Hok]; [discriminate|];
            inversion Hrun; subst; clear Hrun;
            exists evs, 1; rewrite Hok; repeat split; auto; try lia; congruence).
  - destruct Hok as [Hok|Hok]; [discriminate|].
    rewrite (attempt_on_retry_last 0 _ _ _ _ Nat.le_0_1 Hb) in Hrun.
    inversion Hrun; subst; clear Hrun; simpl.
    eexists; exists 1. rewrite Ht, <- ?app_assoc; simpl.
    split; [reflexivity|].
    rewrite attempts_in_app, writes_in_app, persisted_in_app, Hat, Hok.
    simpl. rewrite app_nil_r. repeat split; auto; try lia; congruence.
  - destruct Hok as [Hok|Hok]; [discriminate|].
    destruct n as [|k].
    + rewrite (attempt_on_retry_last 1 _ _ _ _ (le_n 1) Hb) in Hrun.
      inversion Hrun; subst; clear Hrun; simpl.
      eexists; exists 1. rewrite Ht, <- ?app_assoc; simpl.
      split; [reflexivity|].
      rewrite attempts_in_app, writes_in_app, persisted_in_app, Hat, Hok.
      simpl. rewrite app_nil_r. repeat split; auto; try lia; congruence.
    + rewrite (attempt_on_retry_more _ _ _ _ _ Hb) in Hrun.
      apply IH in Hrun as (evs' & k' & Ht' & Hat' & Hk' & Hwr' & Hpe' & Hok').
      simpl in Ht'.
      exists (evs ++ ErrorLogged (exn_str (ElementShouldRetryError m)) el :: evs'),
             (S k').
      split; [rewrite Ht', Ht, <- !app_assoc; reflexivity|].
      rewrite attempts_in_app, writes_in_app, persisted_in_app, Hat, Hok.
      simpl. rewrite Hat', length_app.
      repeat split; auto; lia.
Qed.

Lemma errored_only_by_exhaustion (el : LocalElement) (n : nat) :
  forall (a : Analyser W) r a',
    __attempt_analyse (S n) el a = (r, a') ->
    errored a = false -> errored a' = true ->
    r = Ok tt /\
    exists evs before,
      trace a' = trace a ++ evs /\
      attempts_in evs = repeat el (S n) /\
      persisted_in evs = [] /\
      errors_in evs = before ++ [(exhausted_msg, el)].
Proof.
  induction n as [|n IH]; intros a r a' Hrun Hunset Hset;
    destruct (attempt_body el a) as [rb a1] eqn:Hb;
    pose proof (body_counts _ _ _ _ Hb)
      as (Hs & He & evs & Ht & Hat & Hwr & Hpe & Hok & Her);
    destruct rb as [[]|[m|m|m|m|m]].
  all: try (rewrite (attempt_on_ok _ _ _ _ Hb) in Hrun;
            inversion Hrun; subst; clear Hrun; congruence).
  all: try (rewrite (attempt_on_skip _ _ _ _ _ Hb) in Hrun;
            inversion Hrun; subst; clear Hrun; simpl in Hset; congruence).
  all: try (match type of Hb with
            | _ = (Raise ?e, _) =>
                rewrite (attempt_on_unclassified _ _ _ _ e I eq_refl Hb) in Hrun
            end;
            destruct (dev a1); inversion Hrun; subst; clear Hrun;
            simpl in Hset; congruence).
  all: try (match type of Hb with
            | _ = (Raise ?e, _) =>
                rewrite (attempt_on_base_exception _ _ _ _ e eq_refl Hb) in Hrun
            end;
            inversion Hrun; subst; clear Hrun; congruence).
  - destruct Hok as [Hok|Hok]; [discriminate|].
    rewrite (attempt_on_retry_last 1 _ _ _ _ (le_n 1) Hb) in Hrun.
    inversion Hrun; subst; clear Hrun. split; [reflexivity|].
    eexists. exists [(exn_str (ElementShouldRetryError m), el)].
    simpl. rewrite Ht, <- !app_assoc. split; [reflexivity|].
    rewrite attempts_in_app, persisted_in_app, errors_in_app, Hat, Hok, Her.
    simpl. repeat split.
  - destruct Hok as [Hok|Hok]; [discriminate|].
    rewrite (attempt_on_retry_more _ _ _ _ _ Hb) in Hrun.
    apply IH in Hrun as (Hr & evs' & before & Ht' & Hat' & Hpe' & Her');
      [|simpl; congruence|exact Hset].
    split; [exact Hr|]. simpl in Ht'.
    exists (evs ++ ErrorLogged (exn_str (ElementShouldRetryError m)) el :: evs'),
           ((exn_str (ElementShouldRetryError m), el) :: before).
    split; [rewrite Ht', Ht, <- !app_assoc; reflexivity|].
    rewrite attempts_in_app, persisted_in_app, errors_in_app, Hat, Hok, Her.
    simpl. rewrite Hat', Hpe', Her'. repeat split.
Qed.

(** [k] calls on which the hook raises should-retry use up [k] attempts
    and change nothing but the world and the trace. *)
Lemma retries_peel (el : LocalElement) (k : nat) :
  forall (n : nat) (a : Analyser W) (wk : W),
    k < n ->
    raises_retry_times k el (config a) (world a) wk ->
    exists ak evs,
      __attempt_analyse n el a = __attempt_analyse (n - k) el ak /\
      world ak = wk /\ same_settings a ak /\ errored ak = errored a /\
      trace ak = trace a ++ evs /\
      attempts_in evs = repeat el k /\ writes_in evs = [] /\
      List.length (errors_in evs) = k.
Proof.
  induction k as [|k IH]; intros n a wk Hlt Hretries.
  - simpl in Hretries; subst wk. exists a, [].
    rewrite Nat.sub_0_r, app_nil_r. repeat split.
  - destruct Hretries as (m & w0 & Hraise & Hretries).
    destruct n as [|[|n]]; [lia|lia|].
    rewrite (attempt_on_retry_more _ _ _ _ _ (body_raises _ _ _ _ Hraise)).
    set (a2 := with_event _ _).
    destruct (IH (S n) a2 wk) as
      (ak & evs' & Hrun & Hwo & Hs' & Herr & Ht' & Hat' & Hwr' & Her');
      [lia|exact Hretries|].
    exists ak,
      (Attempted el :: ErrorLogged (exn_str (ElementShouldRetryError m)) el :: evs').
    change (S (S n) - S k) with (S n - k).
    split; [exact Hrun|]. split; [exact Hwo|].
    split; [destruct Hs' as (?&?&?&?&?&?); repeat split; simpl in *; congruence|].
    split; [exact Herr|].
    split; [rewrite Ht'; simpl; rewrite <- !app_assoc; reflexivity|].
    simpl. rewrite Hat', Hwr', Her'. repeat split.
Qed.

End MoreAttempt.

Section RunPhases.

Context {W : Type} `{Storage W} `{Hooks W} `{MTModule W}.

(** A serial run that returned, phase by phase. *)
Lemma serial_run_phases (a a' : Analyser W) :
  in_parallel a = false ->
  start_analysing a = (Ok tt, a') ->
  exists w1 els w2 a2 a3,
    pre_analyse (config a) (world a) = (Ok tt, w1) /\
    read_elements (elements_in (config a)) w1 = (Ok els, w2) /\
    els <> [] /\
    analyse_loop els (main_entry a w1 w2) = (Ok tt, a2) /\
    __post_analyse (with_event LogsFlushed a2) = (Ok tt, a3) /\
    name a3 = name a /\ config a3 = config a /\
    errored a' = errored a3 /\
    trace a' = trace a3 ++ epilogue a a'.
Proof.
  intros Hser Hrun. rewrite start_analysing_unfold in Hrun.
  set (a0 := with_event (Logged (mode_msg a)) a) in Hrun.
  destruct (__pre_analyse a0) as [r1 a1] eqn:Hpre.
  destruct (pre_analyse_frame _ _ _ Hpre) as (_ & _ & Ha1 & Hr1).
  simpl in Ha1, Hr1.
  destruct (pre_analyse (config a) (world a)) as [rp w1] eqn:Hhook.
  simpl in Ha1, Hr1. subst r1.
  destruct rp as [[]|e]; [|discriminate].
  destruct (__analyse a1) as [r2 a2] eqn:Hmain.
  destruct r2 as [[]|e]; [|discriminate].
  assert (Hser1 : in_parallel a1 = false) by (subst a1; exact Hser).
  destruct (analyse_serial_ok _ _ Hser1 Hmain)
    as (els & w2 & a2' & Hne & Hread & Hloop & Ha2).
  subst a1. simpl in Hread.
  change (analyse_loop els (main_entry a w1 w2) = (Ok tt, a2')) in Hloop.
  destruct (analyse_loop_shape _ _ _ Hloop) as ((Hnx & Hcx & _ & _) & _).
  destruct (__post_analyse a2) as [r3 a3] eqn:Hpost.
  destruct (post_analyse_frame _ _ _ Hpost)
    as ((Hn3 & Hc3 & _ & _ & _ & _) & He3 & _).
  destruct r3 as [[]|e]; [|discriminate].
  assert (Hname : name a3 = name a).
  { rewrite Hn3, Ha2. simpl. rewrite Hnx. reflexivity. }
  assert (Hconf : config a3 = config a).
  { rewrite Hc3, Ha2. simpl. rewrite Hcx. reflexivity. }
  exists w1, els, w2, a2', a3.
  split; [reflexivity|]. split; [exact Hread|]. split; [exact Hne|].
  split; [exact Hloop|]. split; [rewrite <- Ha2; exact Hpost|].
  split; [exact Hname|]. split; [exact Hconf|].
  unfold epilogue.
  destruct (errored a3) eqn:Hfinal.
  - inversion Hrun; subst a'. simpl. rewrite Hfinal. split; reflexivity.
  - destruct (disk_write_meta (meta_path a3) (meta_record a3) a3)
      as [r4 a4] eqn:Hmeta.
    destruct (write_meta_frame _ _ _ _ _ Hmeta) as (_ & He4 & Ht4).
    destruct r4 as [[]|e]; [|discriminate].
    inversion Hrun; subst a'. simpl. rewrite He4, Hfinal, Ht4.
    rewrite (meta_path_same _ _ Hname Hconf), (meta_record_same _ _ Hname Hconf).
    rewrite <- app_assoc. split; reflexivity.
Qed.


Lemma forallb_id_filter (bs : list bool) :
  forallb (fun b => b) bs = true <->
  List.length (filter (fun b => b) bs) = List.length bs.
Proof.
  induction bs as [|b bs IH]; simpl; [tauto|].
  pose proof (filter_length_le (fun b => b) bs) as Hle.
  destruct b; simpl.
  - rewrite IH. split; intros E; lia.
  - split; [discriminate|lia].
Qed.

(** The loop of [__post_analyse] when [write_element] does not raise: one
    write per input query, in order, whatever the answers. *)
Lemma write_aggregate_all (outel : LocalElement)
    (Hwrite : write_never_raises outel) (qs : list string) :
  forall a : Analyser W,
    exists successes a' evs,
      write_aggregate qs outel a = (Ok successes, a') /\
      same_settings a a' /\ errored a' = errored a /\
      trace a' = trace a ++ evs /\
      map fst (writes_in evs) =
        map (fun q => ((selector_of q ++ "/" ++ name a)%string, outel)) qs /\
      List.length (persisted_in evs) = List.length (filter (fun b => b) successes) /\
      List.length successes = List.length qs /\
      attempts_in evs = [] /\ metas_in evs = [] /\ reads_in evs = [].
Proof.
  induction qs as [|q qs IH]; intros a.
  - exists [], a, []. rewrite app_nil_r. repeat split.
  - simpl. unfold bind, get, disk_write_element, ret. simpl.
    match goal with
    | |- context [write_element ?d outel ?f ?w] =>
        destruct (Hwrite d f w) as (b & w1 & Hw); rewrite Hw
    end.
    set (a1 := with_event _ _).
    destruct (IH a1) as (bs & a' & evs & Hrun & Hs & He & Ht & Hwr & Hpe & Hlen
                         & Hat & Hm & Hr).
    rewrite Hrun.
    exists (b :: bs), a'. eexists. split; [reflexivity|].
    split; [destruct Hs as (?&?&?&?&?&?); repeat split; simpl in *; congruence|].
    split; [rewrite He; reflexivity|].
    split; [rewrite Ht; simpl; rewrite <- app_assoc; reflexivity|].
    simpl. rewrite Hwr, Hat, Hm, Hr.
    split; [reflexivity|].
    split; [destruct b; simpl; rewrite Hpe; reflexivity|].
    split; [rewrite Hlen; reflexivity|]. repeat split.
Qed.

End RunPhases.

Lemma last_of_constant {A : Type} (f : LocalElement -> A) (v d : A)
    (els : list LocalElement) :
  els <> [] -> Forall (fun x => f x = v) els -> last (map f els) d = v.
Proof.
  intros Hne Hall. induction els as [|x els IH]; [contradiction|].
  pose proof (Forall_inv Hall) as Hx. pose proof (Forall_inv_tail Hall) as Hrest.
  destruct els as [|y els]; [exact Hx|].
  change (last (map f (y :: els)) d = v). apply IH; [discriminate|exact Hrest].
Qed.

(** * Further properties of the analyser *)

Section ExtraProperties.

Context {W : Type} `{Storage W} `{Hooks W} `{MTModule W}.

(** X1.  When the hook returns [None] the element is left alone: one call
    of the hook, no call of [write_element], nothing logged, [errored]
    unchanged, and [__attempt_analyse] returns normally whatever the
    number of attempts left. *)
Theorem declined_element_is_left_alone
    (n : nat) (el : LocalElement) (a : Analyser W) (w' : W) :
  analyse_element el (config a) (world a) = (Ok None, w') ->
  exists a',
    __attempt_analyse n el a = (Ok tt, a') /\
    trace a' = trace a ++ [Attempted el] /\
    errored a' = errored a /\
    world a' = w'.
Proof.
  intros Hc. exists (after_call el w' a). split.
  - apply attempt_on_ok, body_returns_none, Hc.
  - repeat split.
Qed.

(** X2.  Whatever the hook and the storage do, the attempts on one
    element call the hook at least once and at most five times, always
    on that element; [write_element] is called at most once per call of
    the hook, at most one write succeeds, and when one does the attempts
    return normally. *)
Theorem at_most_five_attempts_one_output
    (el : LocalElement) (a : Analyser W) (r : res unit) (a' : Analyser W) :
  __attempt_analyse 5 el a = (r, a') ->
  exists evs k,
    trace a' = trace a ++ evs /\
    attempts_in evs = repeat el k /\
    1 <= k <= 5 /\
    List.length (writes_in evs) <= k /\
    List.length (persisted_in evs) <= 1 /\
    (persisted_in evs <> [] -> r = Ok tt).
Proof.
  intros Hrun.
  destruct (attempt_counts el 5 a r a' Hrun)
    as (evs & k & Ht & Hat & Hk & Hwr & Hpe & Hok).
  exists evs, k. simpl in Hk. repeat split; try assumption; lia.
Qed.

(** X3.  The attempts on an element set [errored] only by exhausting the
    retries: when the flag goes from unset to set, the hook was called
    exactly five times, nothing was persisted, the last message logged is
    the exhausted-retries one, and the call returned normally. *)
Theorem errored_set_only_on_exhaustion
    (el : LocalElement) (a : Analyser W) (r : res unit) (a' : Analyser W) :
  __attempt_analyse 5 el a = (r, a') ->
  errored a = false ->
  errored a' = true ->
  r = Ok tt /\
  exists evs before,
    trace a' = trace a ++ evs /\
    attempts_in evs = [el; el; el; el; el] /\
    persisted_in evs = [] /\
    errors_in evs = before ++ [(exhausted_msg, el)].
Proof.
  intros Hrun Hunset Hset.
  exact (errored_only_by_exhaustion el 4 a r a' Hrun Hunset Hset).
Qed.

(** X4.  [k] calls on which the hook raises should-retry use up [k] of
    the attempts and nothing else: a call with [n > k] attempts ends like
    a call with [n - k] attempts started after them, when the settings
    and [errored] are as before, nothing has been written and [k]
    messages have been logged. *)
Theorem failed_attempts_use_up_the_budget
    (k n : nat) (el : LocalElement) (a : Analyser W) (wk : W) :
  k < n ->
  raises_retry_times k el (config a) (world a) wk ->
  exists ak evs,
    __attempt_analyse n el a = __attempt_analyse (n - k) el ak /\
    world ak = wk /\ same_settings a ak /\ errored ak = errored a /\
    trace ak = trace a ++ evs /\
    attempts_in evs = repeat el k /\ writes_in evs = [] /\
    List.length (errors_in evs) = k.
Proof. intros Hlt Hretries. exact (retries_peel el k n a wk Hlt Hretries). Qed.

(** X5.  The loop of [analyse] over a list is the loop over a prefix
    followed, when that returned, by the loop over the rest, started from
    the object the prefix left; an exception in the prefix ends both. *)
Theorem serial_batches_compose
    (xs ys : list LocalElement) (a : Analyser W) :
  analyse_loop (xs ++ ys) a =
    bind (analyse_loop xs) (fun _ => analyse_loop ys) a.
Proof.
  revert a. induction xs as [|x xs IH]; intros a; [reflexivity|].
  simpl app. unfold bind. rewrite !analyse_loop_cons.
  destruct (analyse_one x a) as [[[]|e] a1]; [|reflexivity].
  rewrite IH. reflexivity.
Qed.

(** X6.  [errored] is never reset: a serial run started with the flag
    set ends with the flag set and never calls [write_meta], whether it
    returns or raises and whatever its elements do. *)
Theorem errored_flag_is_never_reset
    (a : Analyser W) (r : res unit) (a' : Analyser W) :
  in_parallel a = false ->
  errored a = true ->
  start_analysing a = (r, a') ->
  errored a' = true /\ adds_no_metadata a a'.
Proof.
  intros Hser Herr Hrun. rewrite start_analysing_unfold in Hrun.
  set (a0 := with_event (Logged (mode_msg a)) a) in Hrun.
  assert (M0 : adds_no_metadata a a0) by (eexists; split; reflexivity).
  destruct (__pre_analyse a0) as [r1 a1] eqn:Hpre.
  destruct (pre_adds_no_metadata _ _ _ Hpre) as (M1 & (_ & _ & Hp1 & _) & E1).
  assert (Herr1 : errored a1 = true) by (rewrite E1; exact Herr).
  pose proof (adds_no_metadata_trans _ _ _ M0 M1) as M01.
  destruct r1 as [[]|e]; [|inversion Hrun; subst; split; assumption].
  destruct (__analyse a1) as [r2 a2] eqn:Hmain.
  assert (Hser1 : in_parallel a1 = false) by (rewrite Hp1; exact Hser).
  destruct (analyse_serial_frame_any _ _ _ Hser1 Hmain) as (_ & E2 & M2).
  pose proof (adds_no_metadata_trans _ _ _ M01 M2) as M02.
  destruct r2 as [[]|e]; [|inversion Hrun; subst; split; auto].
  destruct (__post_analyse a2) as [r3 a3] eqn:Hpost.
  destruct (post_adds_no_metadata _ _ _ Hpost) as (M3 & _ & E3).
  pose proof (adds_no_metadata_trans _ _ _ M02 M3) as M03.
  assert (Herr3 : errored a3 = true) by (rewrite E3; auto).
  destruct r3 as [[]|e]; [|inversion Hrun; subst; split; auto].
  rewrite Herr3 in Hrun. inversion Hrun; subst. split; [exact Herr3|].
  eapply adds_no_metadata_trans; [exact M03|apply flush_adds_no_metadata].
Qed.

(** X7.  When the hook [pre_analyse] raises, [start_analysing] raises
    the same exception right after the flush that ends the pre phase: the
    storage is not read, no element is attempted, nothing is written. *)
Theorem failing_pre_hook_aborts_before_storage
    (a : Analyser W) (e : exn) (w1 : W) :
  pre_analyse (config a) (world a) = (Raise e, w1) ->
  exists a',
    start_analysing a = (Raise e, a') /\
    trace a' = trace a ++
      [Logged (mode_msg a); PhaseEntered "pre-analyse"; PreAnalyseCalled;
       LogsFlushed] /\
    world a' = w1 /\ errored a' = errored a.
Proof.
  intros Hhook. rewrite start_analysing_unfold.
  set (a0 := with_event (Logged (mode_msg a)) a).
  destruct (__pre_analyse a0) as [r1 a1] eqn:Hpre.
  destruct (pre_analyse_frame _ _ _ Hpre) as (_ & _ & Ha1 & Hr1).
  simpl in Ha1, Hr1. rewrite Hhook in Ha1, Hr1. simpl in Ha1, Hr1. subst r1 a1.
  eexists. split; [reflexivity|]. simpl. rewrite <- !app_assoc. repeat split.
Qed.

(** X8.  When the hook [post_analyse] raises whatever it is given, no
    serial run returns normally and none calls [write_meta]. *)
Theorem failing_post_hook_leaves_no_metadata
    (a : Analyser W) (r : res unit) (a' : Analyser W) :
  in_parallel a = false ->
  post_hook_always_raises ->
  start_analysing a = (r, a') ->
  (exists e, r = Raise e) /\ adds_no_metadata a a'.
Proof.
  intros Hser Hpost_raises Hrun. rewrite start_analysing_unfold in Hrun.
  set (a0 := with_event (Logged (mode_msg a)) a) in Hrun.
  assert (M0 : adds_no_metadata a a0) by (eexists; split; reflexivity).
  destruct (__pre_analyse a0) as [r1 a1] eqn:Hpre.
  destruct (pre_adds_no_metadata _ _ _ Hpre) as (M1 & (_ & _ & Hp1 & _) & _).
  pose proof (adds_no_metadata_trans _ _ _ M0 M1) as M01.
  destruct r1 as [[]|e]; [|inversion Hrun; subst; split; [eexists; reflexivity|assumption]].
  destruct (__analyse a1) as [r2 a2] eqn:Hmain.
  assert (Hser1 : in_parallel a1 = false) by (rewrite Hp1; exact Hser).
  destruct (analyse_serial_frame_any _ _ _ Hser1 Hmain) as (_ & _ & M2).
  pose proof (adds_no_metadata_trans _ _ _ M01 M2) as M02.
  destruct r2 as [[]|e]; [|inversion Hrun; subst; split; [eexists; reflexivity|assumption]].
  destruct (__post_analyse a2) as [r3 a3] eqn:Hpost.
  destruct (post_adds_no_metadata _ _ _ Hpost) as (M3 & _ & _).
  pose proof (adds_no_metadata_trans _ _ _ M02 M3) as M03.
  assert (Hraised : exists e, r3 = Raise e).
  { revert Hpost. unfold __post_analyse. rewrite phase_unfold.
    unfold disk_read_elements, bind, get, get_dest_q, emit, modify, call. simpl.
    destruct (read_elements [dest_q a2] (world a2)) as [[els|e] w1]; simpl.
    - destruct (Hpost_raises els w1) as (e & w' & Hh). rewrite Hh. simpl.
      intros Hres; inversion Hres. eexists; reflexivity.
    - intros Hres; inversion Hres. eexists; reflexivity. }
  destruct Hraised as (e & ->).
  inversion Hrun; subst. split; [eexists; reflexivity|assumption].
Qed.

End ExtraProperties.

Section ExtraRunProperties.

Context {W : Type} `{Storage W} `{Hooks W} `{MTModule W}.

(** X9.  When [post_analyse] returns an element and [write_element] does
    not raise for it, the post phase writes that element once under the
    "selector/stage" path of every input query, in the order of the input
    queries and without stopping at a refused write; it returns normally
    when every write was accepted and raises [ElementShouldRetryError]
    otherwise.  [errored] keeps its value either way. *)
Theorem aggregate_written_under_every_input_selector
    (a : Analyser W) (els : list LocalElement) (outel : LocalElement)
    (w1 w2 : W) :
  read_elements [dest_q a] (world a) = (Ok els, w1) ->
  post_analyse els w1 = (Ok (Some outel), w2) ->
  write_never_raises outel ->
  exists r a' evs,
    __post_analyse a = (r, a') /\
    trace a' = trace a ++
      [PhaseEntered "post-analyse"; ElementsRead [dest_q a];
       PostAnalyseCalled els] ++ evs ++ [LogsFlushed] /\
    map fst (writes_in evs) =
      map (fun q => ((selector_of q ++ "/" ++ name a)%string, outel))
          (elements_in (config a)) /\
    (List.length (persisted_in evs) = List.length (elements_in (config a)) ->
     r = Ok tt) /\
    (List.length (persisted_in evs) <> List.length (elements_in (config a)) ->
     r = Raise (ElementShouldRetryError post_write_failed_msg)) /\
    errored a' = errored a.
Proof.
  intros Hread Hpost Hwrite.
  unfold __post_analyse. rewrite phase_unfold.
  unfold disk_read_elements, bind, get, get_dest_q, emit, modify, call, ret, raise.
  simpl. rewrite Hread. simpl. rewrite Hpost. simpl.
  set (a1 := with_world w2 _).
  destruct (write_aggregate_all outel Hwrite (elements_in (config a)) a1)
    as (bs & a2 & evs & Hrun & _ & He & Ht & Hwr & Hpe & Hlen & _).
  rewrite Hrun. simpl.
  pose proof (forallb_id_filter bs) as Hall.
  destruct (forallb (fun b => b) bs) eqn:Hf; simpl;
    eexists; eexists; exists evs; (split; [reflexivity|]); simpl;
    rewrite Ht; unfold a1; simpl; rewrite <- !app_assoc; simpl;
    (split; [reflexivity|]); (split; [exact Hwr|]).
  - split; [reflexivity|]. split; [|exact He].
    intros Hneq. exfalso. apply Hneq. rewrite Hpe, <- Hlen.
    apply Hall. reflexivity.
  - split; [|split; [reflexivity|exact He]].
    intros Heq. rewrite Hpe, <- Hlen in Heq. apply Hall in Heq. discriminate.
Qed.

(** X10.  With a single input query and a storage that answers elements
    carrying the query asked for, a serial run that returned used one path
    for everything, the selector of that query followed by "/" and the
    stage name: every write of the main phase and of the post phase went
    there, the post phase read there, and the metadata record, when one
    was written, went there too. *)
Theorem single_query_run_uses_one_path
    (a a' : Analyser W) (q : string) :
  in_parallel a = false ->
  answers_what_was_asked ->
  elements_in (config a) = [q] ->
  start_analysing a = (Ok tt, a') ->
  meta_path a = (selector_of q ++ "/" ++ name a)%string /\
  exists evs,
    trace a' = trace a ++ evs /\
    Forall (fun w => fst (fst w) = meta_path a) (writes_in evs) /\
    reads_in evs = [[q]; [meta_path a]] /\
    metas_in evs = (if errored a' then [] else [meta_path a]).
Proof.
  intros Hser Hstorage Hq Hrun.
  assert (Hpath : meta_path a = (selector_of q ++ "/" ++ name a)%string).
  { unfold meta_path, get_selector. rewrite Hq. reflexivity. }
  split; [exact Hpath|].
  destruct (serial_run_phases _ _ Hser Hrun)
    as (w1 & els & w2 & a2 & a3 & _ & Hread & Hne & Hloop & Hpost
        & Hname & Hconf & Herr & Ht).
  assert (Hdest : Forall (fun x => dest_of (name a) x = meta_path a) els).
  { apply Hstorage in Hread. rewrite Hq in Hread.
    eapply Forall_impl; [|exact Hread]. intros x [Hx|[]].
    rewrite Hpath. unfold dest_of, selector_of. rewrite Hx. reflexivity. }
  destruct (analyse_loop_shape _ _ _ Hloop)
    as ((Hn2 & Hc2 & _ & _) & _ & Hq2 & _ & main & Ht2 & Hturns & _).
  change (name (main_entry a w1 w2)) with (name a) in *.
  change (config (main_entry a w1 w2)) with (config a) in *.
  destruct (turns_quiet _ _ _ _ Hturns) as (Hmain_metas & Hmain_reads).
  pose proof (turns_writes _ _ _ _ Hturns) as Hmain_writes.
  destruct (post_analyse_frame _ _ _ Hpost)
    as (_ & _ & post & Ht3 & Hpost_reads & (_ & Hpost_metas & _ & Hpost_writes)).
  change (dest_q (with_event LogsFlushed a2)) with (dest_q a2) in Hpost_reads.
  change (name (with_event LogsFlushed a2)) with (name a2) in Hpost_writes.
  change (config (with_event LogsFlushed a2)) with (config a2) in Hpost_writes.
  rewrite Hq2, (last_of_constant _ _ _ _ Hne Hdest) in Hpost_reads.
  rewrite Hn2, Hc2, Hq in Hpost_writes.
  exists (prologue a ++ main ++ [LogsFlushed] ++ post ++ epilogue a a').
  split.
  { rewrite Ht, Ht3. simpl. rewrite Ht2. unfold main_entry, prologue. simpl.
    repeat (progress (simpl; rewrite <- ?app_assoc)). reflexivity. }
  split.
  { rewrite !writes_in_app. repeat (apply Forall_app; split).
    - constructor.
    - eapply Forall_impl; [|exact Hmain_writes]. intros w (x & Hin & Hw).
      rewrite Hw. rewrite Forall_forall in Hdest. apply Hdest, Hin.
    - constructor.
    - eapply Forall_impl; [|exact Hpost_writes]. intros w (q' & [Hq'|[]] & Hw).
      subst q'. rewrite Hw, Hpath. reflexivity.
    - unfold epilogue. destruct (errored a'); constructor. }
  split.
  { rewrite !reads_in_app, Hmain_reads, Hpost_reads. unfold prologue, epilogue.
    rewrite Hq. destruct (errored a'); reflexivity. }
  rewrite !metas_in_app, Hmain_metas, Hpost_metas. unfold epilogue.
  destruct (errored a'); reflexivity.
Qed.


End ExtraRunProperties.

(** * Production mode *)

Section Production.

Context {W : Type} `{Storage W} `{Hooks W} `{MTModule W}.

Lemma attempt_raises_only_base_in_production (el : LocalElement) (n : nat) :
  forall (a : Analyser W) r a',
    dev a = false ->
    __attempt_analyse n el a = (r, a') ->
    match r with
    | Ok _ => True
    | Raise e => is_Exception e = false
    end.
Proof.
  induction n as [|n IH]; intros a r a' Hprod Hrun;
    destruct (attempt_body el a) as [rb a1] eqn:Hb;
    pose proof (body_counts _ _ _ _ Hb) as ((_ & _ & _ & Hd & _ & _) & _);
    destruct rb as [[]|[m|m|m|m|m]].
  all: try (rewrite (attempt_on_ok _ _ _ _ Hb) in Hrun;
            inversion Hrun; subst; exact I).
  all: try (rewrite (attempt_on_skip _ _ _ _ _ Hb) in Hrun;
            inversion Hrun; subst; exact I).
  all: try (match type of Hb with
            | _ = (Raise ?e, _) =>
                rewrite (attempt_on_unclassified _ _ _ _ e I eq_refl Hb) in Hrun
            end;
            rewrite Hd, Hprod in Hrun; inversion Hrun; subst; exact I).
  all: try (match type of Hb with
            | _ = (Raise ?e, _) =>
                rewrite (attempt_on_base_exception _ _ _ _ e eq_refl Hb) in Hrun
            end;
            inversion Hrun; subst; reflexivity).
  - rewrite (attempt_on_retry_last 0 _ _ _ _ Nat.le_0_1 Hb) in Hrun.
    inversion Hrun; subst; exact I.
  - destruct n as [|k].
    + rewrite (attempt_on_retry_last 1 _ _ _ _ (le_n 1) Hb) in Hrun.
      inversion Hrun; subst; exact I.
    + rewrite (attempt_on_retry_more _ _ _ _ _ Hb) in Hrun.
      apply IH in Hrun; [exact Hrun|]. simpl. rewrite Hd. exact Hprod.
Qed.

(** X16.  Outside development mode the loop of [analyse] is left early
    only by an exception that is not an [Exception] ([KeyboardInterrupt],
    [SystemExit]): no should-skip, should-retry or other [Exception] of
    the hook or of [write_element] leaves it.  When the loop returns it
    has attempted every element, in the order of the list, at least once
    and at most five times; when it is left early it has done so for the
    elements up to the one whose attempt raised. *)
Theorem production_loop_stops_only_on_base_exceptions
    (els : list LocalElement) (a : Analyser W) (r : res unit) (a' : Analyser W) :
  dev a = false ->
  analyse_loop els a = (r, a') ->
  exists evs ks,
    trace a' = trace a ++ evs /\
    Forall (fun k => 1 <= k <= 5) ks /\
    attempts_in evs =
      flat_map (fun p => repeat (fst p) (snd p)) (combine els ks) /\
    match r with
    | Ok _ => List.length ks = List.length els
    | Raise e =>
        is_Exception e = false /\ 1 <= List.length ks <= List.length els
    end.
Proof.
  revert a r a'. induction els as [|el rest IH]; intros a r a' Hprod Hloop.
  - inversion Hloop; subst. exists [], []. rewrite app_nil_r.
    repeat split. constructor.
  - rewrite analyse_loop_cons, analyse_one_unfold in Hloop. cbv zeta in Hloop.
    set (d := dest_of (name a) el) in *.
    set (a0 := with_dest_q d (with_event (DestSet d) a)) in *.
    destruct (__attempt_analyse 5 el a0) as [r5 a5] eqn:Hrun.
    pose proof (attempt_raises_only_base_in_production el 5 a0 r5 a5 Hprod Hrun)
      as Hres.
    destruct (attempt_counts el 5 a0 _ _ Hrun)
      as (evs & k & Ht & Hat & Hk & _).
    destruct (attempt_frame 5 el a0 _ _ Hrun) as ((_ & _ & _ & Hd & _) & _).
    destruct r5 as [[]|e].
    + destruct (IH (with_delete_local_on_write false a5) r a')
        as (evs' & ks & Ht' & Hks & Hat' & Hr);
        [simpl; rewrite Hd; exact Hprod|exact Hloop|].
      exists (DestSet d :: evs ++ evs'), (k :: ks).
      split; [rewrite Ht'; simpl; rewrite Ht; simpl; rewrite <- !app_assoc;
              reflexivity|].
      split; [constructor; [simpl in Hk; lia|exact Hks]|].
      split; [simpl; rewrite attempts_in_app, Hat, Hat'; reflexivity|].
      destruct r as [[]|e]; simpl; [lia|].
      destruct Hr as (He & Hlen). split; [exact He|lia].
    + inversion Hloop; subst.
      exists (DestSet d :: evs), [k].
      split; [rewrite Ht; simpl; rewrite <- !app_assoc; reflexivity|].
      split; [constructor; [simpl in Hk; lia|constructor]|].
      split; [simpl; rewrite combine_nil; simpl; rewrite Hat, app_nil_r;
              reflexivity|].
      split; [exact Hres|simpl; lia].
Qed.

End Production.

(** * The constructor *)

(** X12.  [__init__] constructs the analyser exactly when the name is a
    non-empty string, the storage is a [Storage] and the configuration
    holds a non-empty list under "elements_in"; whether the list holds
    strings is not looked at. *)
Theorem constructor_accepts_exactly
    (config : string -> option pyvalue) (module : pyvalue) (storage_ok : bool) :
  __init__ config module storage_ok = None <->
  (exists s, module = PyStr s /\ s <> EmptyString) /\
  storage_ok = true /\
  (exists items, config "elements_in" = Some (PyList items) /\ items <> []).
Proof.
  unfold __init__. split.
  - destruct module as [| | |s| | |]; simpl; try discriminate.
    destruct (String.eqb_spec s EmptyString) as [->|Hs]; simpl; [discriminate|].
    destruct storage_ok; simpl; [|discriminate].
    destruct (config "elements_in") as [[| | | |items| |]|]; simpl;
      try discriminate;
      try (match goal with |- context [negb ?c || true] =>
             rewrite orb_true_r; discriminate end).
    destruct items as [|item items]; simpl; [discriminate|].
    intros _. split; [exists s; split; [reflexivity|exact Hs]|].
    split; [reflexivity|]. eexists. split; [reflexivity|discriminate].
  - intros ((s & -> & Hs) & -> & (items & Hc & Hitems)). simpl.
    destruct (String.eqb_spec s EmptyString) as [E|_]; [contradiction|]. simpl.
    rewrite Hc. destruct items; [contradiction|reflexivity].
Qed.

(** * The components of a build *)

Section BuildProperties.

Variable extract_dep : list string -> string.

Lemma list_remove_none (x : string) (l : list string) :
  Commands.list_remove x l = None <-> ~ In x l.
Proof.
  induction l as [|y l IH]; simpl; [tauto|].
  destruct (String.eqb_spec y x) as [->|Hne].
  - split; [discriminate|]. intros Hn. exfalso. apply Hn. left; reflexivity.
  - destruct (Commands.list_remove x l) as [l'|].
    + split; [discriminate|]. intros Hn. exfalso.
      assert (Hin : ~ In x l) by (intros Hin; apply Hn; right; exact Hin).
      apply IH in Hin. discriminate.
    + split; [|reflexivity]. intros _ [E|Hin]; [contradiction|].
      destruct IH as (IH & _). exact (IH eq_refl Hin).
Qed.

Lemma list_remove_count (x : string) (l l' : list string) :
  Commands.list_remove x l = Some l' ->
  forall y, count_occ string_dec l y =
            count_occ string_dec l' y + (if string_dec x y then 1 else 0).
Proof.
  revert l'. induction l as [|z l IH]; intros l' Hrm y; simpl in Hrm;
    [discriminate|].
  destruct (String.eqb_spec z x) as [->|Hne].
  - inversion Hrm; subst. simpl.
    destruct (string_dec x y); lia.
  - destruct (Commands.list_remove x l) as [l0|] eqn:Hl; [|discriminate].
    inversion Hrm; subst. simpl. rewrite (IH l0 eq_refl y).
    destruct (string_dec z y); destruct (string_dec x y); lia.
Qed.

Lemma remove_whitelisted_spec (rows : list (list string)) :
  forall all : list string,
    ((exists BL, Commands.remove_whitelisted extract_dep rows all = inr BL) <->
     (forall d, count_occ string_dec (Commands.whitelisted extract_dep rows) d
                <= count_occ string_dec all d)) /\
    (forall BL, Commands.remove_whitelisted extract_dep rows all = inr BL ->
       forall d, count_occ string_dec BL d =
                 count_occ string_dec all d
                 - count_occ string_dec (Commands.whitelisted extract_dep rows) d).
Proof.
  induction rows as [|row rows IH]; intros all.
  - simpl. split.
    + split; [intros _ d; lia|intros _; eexists; reflexivity].
    + intros BL E d. inversion E; subst. lia.
  - simpl. unfold Commands.whitelisted. simpl.
    destruct (String.eqb_spec (extract_dep row) EmptyString) as [E|Hne]; simpl.
    + apply IH.
    + destruct (Commands.list_remove (extract_dep row) all) as [all'|] eqn:Hrm.
      * pose proof (list_remove_count _ _ _ Hrm) as Hcount.
        destruct (IH all') as (IHok & IHcount). split.
        -- rewrite IHok. unfold Commands.whitelisted.
           split; intros Hle d; specialize (Hle d); rewrite (Hcount d) in *;
             destruct (string_dec (extract_dep row) d); lia.
        -- intros BL E d. rewrite (IHcount BL E d), (Hcount d).
           unfold Commands.whitelisted.
           destruct (string_dec (extract_dep row) d); lia.
      * apply list_remove_none in Hrm. split.
        -- split; [intros (BL & E); discriminate|].
           intros Hle. specialize (Hle (extract_dep row)).
           rewrite (count_occ_not_In string_dec) in Hrm. rewrite Hrm in Hle.
           destruct (string_dec (extract_dep row) (extract_dep row));
             [lia|contradiction].
        -- intros BL E. discriminate.
Qed.

Lemma blacklisted_In (BL : list string) (c : string) :
  Commands.blacklisted BL c = true <-> In c BL.
Proof.
  unfold Commands.blacklisted. rewrite existsb_exists. split.
  - intros (x & Hin & E). apply String.eqb_eq in E. subst. exact Hin.
  - intros Hin. exists c. split; [exact Hin|apply String.eqb_refl].
Qed.

Lemma included_In (names BL : list string) (c : string) :
  In c (Commands.included names BL) <-> In c names /\ ~ In c BL.
Proof.
  unfold Commands.included. rewrite filter_In, negb_true_iff.
  rewrite <- (blacklisted_In BL c).
  destruct (Commands.blacklisted BL c); split; intros (? & ?);
    split; try assumption; try discriminate; try reflexivity.
  exfalso; auto.
Qed.

(** X13.  [build] accepts a whitelist exactly when no name occurs more
    often among its non-empty names than among the selector and analyser
    folders; otherwise [BLACKLIST.remove] raises [ValueError], as it does
    for a name that is not a folder or that is listed twice.  The
    blacklist argument plays no part when a whitelist is given. *)
Theorem whitelist_accepted_exactly
    (rows : list (list string)) (blacklist : option (list (list string)))
    (selectors analysers : list string) :
  (exists BLACKLIST,
      Commands.build_blacklist extract_dep (Some rows) blacklist
        selectors analysers = inr BLACKLIST) <->
  (forall d, count_occ string_dec (Commands.whitelisted extract_dep rows) d
             <= count_occ string_dec (selectors ++ analysers) d).
Proof.
  unfold Commands.build_blacklist.
  exact (proj1 (remove_whitelisted_spec rows (selectors ++ analysers))).
Qed.

(** X14.  When the folder names are distinct and the whitelist is
    accepted, the build includes exactly the whitelisted components: a
    selector or analyser has its partial files added if and only if the
    whitelist names it. *)
Theorem whitelist_selects_exactly
    (rows : list (list string)) (blacklist : option (list (list string)))
    (selectors analysers BLACKLIST : list string) :
  NoDup (selectors ++ analysers) ->
  Commands.build_blacklist extract_dep (Some rows) blacklist
    selectors analysers = inr BLACKLIST ->
  forall c,
    (In c (Commands.included selectors BLACKLIST) <->
     In c selectors /\ In c (Commands.whitelisted extract_dep rows)) /\
    (In c (Commands.included analysers BLACKLIST) <->
     In c analysers /\ In c (Commands.whitelisted extract_dep rows)).
Proof.
  unfold Commands.build_blacklist. intros Hnodup Hbl c.
  destruct (remove_whitelisted_spec rows (selectors ++ analysers))
    as (Hok & Hcount).
  assert (Hle := proj1 Hok (ex_intro _ BLACKLIST Hbl) c).
  specialize (Hcount BLACKLIST Hbl c).
  rewrite NoDup_count_occ with (decA := string_dec) in Hnodup.
  specialize (Hnodup c).
  assert (Hkey : In c (selectors ++ analysers) ->
                 (~ In c BLACKLIST <->
                  In c (Commands.whitelisted extract_dep rows))).
  { intros Hin.
    rewrite (count_occ_In string_dec) in Hin.
    rewrite (count_occ_not_In string_dec), (count_occ_In string_dec).
    lia. }
  split; rewrite included_In; split.
  - intros (Hin & Hnot). split; [exact Hin|].
    apply Hkey; [apply in_or_app; left; exact Hin|exact Hnot].
  - intros (Hin & Hwl). split; [exact Hin|].
    apply Hkey; [apply in_or_app; left; exact Hin|exact Hwl].
  - intros (Hin & Hnot). split; [exact Hin|].
    apply Hkey; [apply in_or_app; right; exact Hin|exact Hnot].
  - intros (Hin & Hwl). split; [exact Hin|].
    apply Hkey; [apply in_or_app; right; exact Hin|exact Hwl].
Qed.

(** X15.  With a blacklist and no whitelist, [build] never raises on the
    lists, and it leaves out exactly the components whose name some row
    of the blacklist gives and which has more than one character, counted
    as [len] counts them (code points): a component whose name is a single
    character, ASCII or not, is included whatever the blacklist says. *)
Theorem blacklist_excludes_longer_names
    (rows : list (list string)) (selectors analysers : list string) :
  exists BLACKLIST,
    Commands.build_blacklist extract_dep None (Some rows)
      selectors analysers = inr BLACKLIST /\
    (forall names c,
       In c (Commands.included names BLACKLIST) <->
       In c names /\
       ~ (In c (map extract_dep rows) /\ 1 < Commands.len c)) /\
    (forall names c,
       In c names -> Commands.len c <= 1 ->
       In c (Commands.included names BLACKLIST)).
Proof.
  eexists. split; [reflexivity|].
  assert (Hiff : forall names c,
            In c (Commands.included names
                    (filter (fun x => Nat.ltb 1 (Commands.len x))
                            (map extract_dep rows))) <->
            In c names /\
            ~ (In c (map extract_dep rows) /\ 1 < Commands.len c)).
  { intros names c. rewrite included_In, filter_In, Nat.ltb_lt. tauto. }
  split; [exact Hiff|].
  intros names c Hin Hlen. apply Hiff. split; [exact Hin|].
  intros (_ & Hgt). lia.
Qed.

End BuildProperties.

(** * The further properties on the concrete analysers *)

(** An element on which the first concrete hook returns [None]. *)
Lemma declined_element_is_left_alone_witness :
  let x := Demo.el "none" "selA" in
  let a := Demo.fresh ["selA"] false [("selA", Demo.el "none" "selA")] in
  exists a',
    __attempt_analyse 5 x a = (Ok tt, a') /\
    trace a' = trace a ++ [Attempted x] /\
    errored a' = errored a /\
    world a' = Demo.mkWorld 1 [("selA", Demo.el "none" "selA")].
Proof.
  apply (declined_element_is_left_alone 5 (Demo.el "none" "selA")
           (Demo.fresh ["selA"] false [("selA", Demo.el "none" "selA")])
           (Demo.mkWorld 1 [("selA", Demo.el "none" "selA")])).
  reflexivity.
Defined.

(** An element that is stored at the third attempt. *)
Lemma at_most_five_attempts_one_output_witness :
  let x := Demo.el "flaky" "selA" in
  let a := Demo.fresh ["selA"] false [("selA", Demo.el "flaky" "selA")] in
  let r := fst (__attempt_analyse 5 x a) in
  let a' := snd (__attempt_analyse 5 x a) in
  exists evs k,
    trace a' = trace a ++ evs /\
    attempts_in evs = repeat x k /\
    1 <= k <= 5 /\
    List.length (writes_in evs) <= k /\
    List.length (persisted_in evs) <= 1 /\
    (persisted_in evs <> [] -> r = Ok tt).
Proof.
  apply (at_most_five_attempts_one_output (Demo.el "flaky" "selA")
           (Demo.fresh ["selA"] false [("selA", Demo.el "flaky" "selA")])).
  vm_compute. reflexivity.
Defined.

(** An element on which the hook raises should-retry every time. *)
Lemma errored_set_only_on_exhaustion_witness :
  let x := Demo.el "bad" "selA" in
  let a := Demo.fresh ["selA"] false Demo.good_and_bad in
  let r := fst (__attempt_analyse 5 x a) in
  let a' := snd (__attempt_analyse 5 x a) in
  r = Ok tt /\
  exists evs before,
    trace a' = trace a ++ evs /\
    attempts_in evs = [x; x; x; x; x] /\
    persisted_in evs = [] /\
    errors_in evs = before ++ [(exhausted_msg, x)].
Proof.
  apply (errored_set_only_on_exhaustion (Demo.el "bad" "selA")
           (Demo.fresh ["selA"] false Demo.good_and_bad)).
  - vm_compute. reflexivity.
  - reflexivity.
  - vm_compute. reflexivity.
Defined.

(** Two failed attempts out of five. *)
Lemma failed_attempts_use_up_the_budget_witness :
  let x := Demo.el "flaky" "selA" in
  let a := Demo.fresh ["selA"] false [("selA", Demo.el "flaky" "selA")] in
  exists ak evs,
    __attempt_analyse 5 x a = __attempt_analyse (5 - 2) x ak /\
    world ak = Demo.mkWorld 2 [("selA", Demo.el "flaky" "selA")] /\
    same_settings a ak /\ errored ak = errored a /\
    trace ak = trace a ++ evs /\
    attempts_in evs = repeat x 2 /\ writes_in evs = [] /\
    List.length (errors_in evs) = 2.
Proof.
  apply (failed_attempts_use_up_the_budget 2 5 (Demo.el "flaky" "selA")
           (Demo.fresh ["selA"] false [("selA", Demo.el "flaky" "selA")])
           (Demo.mkWorld 2 [("selA", Demo.el "flaky" "selA")])).
  - lia.
  - simpl. exists "timeout". eexists. split; [reflexivity|].
    exists "timeout". eexists. split; reflexivity.
Defined.

(** A run over three good elements on an object whose flag is set. *)
Lemma errored_flag_is_never_reset_witness :
  let a := with_errored true (Demo.fresh ["selA"] false Demo.three_good) in
  let a' := snd (start_analysing a) in
  errored a' = true /\ adds_no_metadata a a'.
Proof.
  apply (errored_flag_is_never_reset
           (with_errored true (Demo.fresh ["selA"] false Demo.three_good))
           (fst (start_analysing
                   (with_errored true (Demo.fresh ["selA"] false Demo.three_good))))).
  - reflexivity.
  - reflexivity.
  - vm_compute. reflexivity.
Defined.

(** A run of the third analyser over a query it cannot prepare for. *)
Lemma failing_pre_hook_aborts_before_storage_witness :
  let a := Broken.fresh ["unprepared"] in
  let e := OtherException "cannot load the model" in
  exists a',
    start_analysing a = (Raise e, a') /\
    trace a' = trace a ++
      [Logged (mode_msg a); PhaseEntered "pre-analyse"; PreAnalyseCalled;
       LogsFlushed] /\
    world a' = world a /\ errored a' = errored a.
Proof.
  apply (failing_pre_hook_aborts_before_storage (Broken.fresh ["unprepared"])
           (OtherException "cannot load the model")
           (world (Broken.fresh ["unprepared"]))).
  reflexivity.
Defined.

(** A run of the third analyser, whose post hook raises. *)
Lemma failing_post_hook_leaves_no_metadata_witness :
  let a := Broken.fresh ["selA"] in
  let r := fst (start_analysing a) in
  let a' := snd (start_analysing a) in
  (exists e, r = Raise e) /\ adds_no_metadata a a'.
Proof.
  apply (failing_post_hook_leaves_no_metadata (Broken.fresh ["selA"])).
  - reflexivity.
  - intros els w. exists (OtherException "no model loaded"), w. reflexivity.
  - vm_compute. reflexivity.
Defined.

(** The post phase of the second analyser over two input queries, the
    first of which has its writes refused. *)
Lemma aggregate_written_under_every_input_selector_witness :
  let a := with_dest_q "selA/frames" (Shelf.fresh ["selB"; "selA"]) in
  exists r a' evs,
    __post_analyse a = (r, a') /\
    trace a' = trace a ++
      [PhaseEntered "post-analyse"; ElementsRead [dest_q a];
       PostAnalyseCalled []] ++ evs ++ [LogsFlushed] /\
    map fst (writes_in evs) =
      map (fun q => ((@selector_of Shelf.World _ q ++ "/" ++ name a)%string,
                     Shelf.summary))
          (elements_in (config a)) /\
    (List.length (persisted_in evs) = List.length (elements_in (config a)) ->
     r = Ok tt) /\
    (List.length (persisted_in evs) <> List.length (elements_in (config a)) ->
     r = Raise (ElementShouldRetryError post_write_failed_msg)) /\
    errored a' = errored a.
Proof.
  apply (aggregate_written_under_every_input_selector
           (with_dest_q "selA/frames" (Shelf.fresh ["selB"; "selA"]))
           [] Shelf.summary (Shelf.mkWorld 0 []) (Shelf.mkWorld 0 [])).
  - reflexivity.
  - reflexivity.
  - intros dest flag w. simpl. unfold Shelf.shelf_write_element.
    destruct (String.eqb dest "selB/frames"); eexists; eexists; reflexivity.
Defined.

Lemma shelf_answers_what_was_asked : @answers_what_was_asked Shelf.World _.
Proof.
  intros qs w els w' Hread. simpl in Hread. unfold Shelf.shelf_read_elements in Hread.
  inversion Hread; subst; clear Hread.
  apply Forall_forall. intros x Hin.
  apply in_flat_map in Hin as (q & Hq & Hx).
  destruct (String.eqb_spec q "selA") as [->|_].
  - destruct Hx as [<-|[<-|[]]]; exact Hq.
  - destruct (String.eqb_spec q "selB") as [->|_]; [|contradiction].
    destruct Hx as [<-|[]]; exact Hq.
Qed.


(** A run of the second analyser over one input query. *)
Lemma single_query_run_uses_one_path_witness :
  let a := Shelf.fresh ["selA"] in
  let a' := snd (start_analysing a) in
  meta_path a = (@selector_of Shelf.World _ "selA" ++ "/" ++ name a)%string /\
  exists evs,
    trace a' = trace a ++ evs /\
    Forall (fun w => fst (fst w) = meta_path a) (writes_in evs) /\
    reads_in evs = [["selA"]; [meta_path a]] /\
    metas_in evs = (if errored a' then [] else [meta_path a]).
Proof.
  apply (single_query_run_uses_one_path (Shelf.fresh ["selA"])
           (snd (start_analysing (Shelf.fresh ["selA"]))) "selA").
  - reflexivity.
  - exact shelf_answers_what_was_asked.
  - reflexivity.
  - vm_compute. reflexivity.
Defined.


(** Two selectors and two analysers, two of the four whitelisted; the
    analyser "frames" is one of them. *)
Lemma whitelist_selects_exactly_witness :
  let rows := [["youtube"]; []; ["frames"]] in
  let selectors := ["youtube"; "twitter"] in
  let analysers := ["frames"; "ocr"] in
  (In "frames" (Commands.included selectors ["twitter"; "ocr"]) <->
   In "frames" selectors /\
   In "frames" (Commands.whitelisted Commands.first_field rows)) /\
  (In "frames" (Commands.included analysers ["twitter"; "ocr"]) <->
   In "frames" analysers /\
   In "frames" (Commands.whitelisted Commands.first_field rows)).
Proof.
  apply (whitelist_selects_exactly Commands.first_field
           [["youtube"]; []; ["frames"]] None
           ["youtube"; "twitter"] ["frames"; "ocr"] ["twitter"; "ocr"]).
  - repeat constructor; simpl; intuition discriminate.
  - reflexivity.
Defined.

(** Two loops outside development mode.  The first is over an element
    that exhausts its retries, one on which the hook divides by zero and a
    good one: it returns.  The second is over a good element, one on which
    the hook is interrupted and another good one: it is left at the second
    element. *)
Lemma production_loop_stops_only_on_base_exceptions_witness :
  (let els := [Demo.el "bad" "selA"; Demo.el "boom" "selA"; Demo.el "v1" "selA"] in
   let a := Demo.fresh ["selA"] false [] in
   let a' := snd (analyse_loop els a) in
   exists evs ks,
     trace a' = trace a ++ evs /\
     Forall (fun k => 1 <= k <= 5) ks /\
     attempts_in evs =
       flat_map (fun p => repeat (fst p) (snd p)) (combine els ks) /\
     List.length ks = List.length els) /\
  (let els := [Stormy.v1; Stormy.interrupt; Stormy.v3] in
   let a := Stormy.fresh ["selA"] false [] in
   let a' := snd (analyse_loop els a) in
   let stop := BaseExceptionOnly "KeyboardInterrupt" in
   fst (analyse_loop els a) = Raise stop /\
   exists evs ks,
     trace a' = trace a ++ evs /\
     Forall (fun k => 1 <= k <= 5) ks /\
     attempts_in evs =
       flat_map (fun p => repeat (fst p) (snd p)) (combine els ks) /\
     is_Exception stop = false /\
     1 <= List.length ks <= List.length els).
Proof.
  cbv zeta. split.
  - set (els := [Demo.el "bad" "selA"; Demo.el "boom" "selA"; Demo.el "v1" "selA"]).
    set (a := Demo.fresh ["selA"] false []).
    assert (Hloop : analyse_loop els a = (Ok tt, snd (analyse_loop els a)))
      by (vm_compute; reflexivity).
    exact (production_loop_stops_only_on_base_exceptions els a (Ok tt) _
             eq_refl Hloop).
  - set (els := [Stormy.v1; Stormy.interrupt; Stormy.v3]).
    set (a := Stormy.fresh ["selA"] false []).
    set (stop := BaseExceptionOnly "KeyboardInterrupt").
    assert (Hloop : analyse_loop els a = (Raise stop, snd (analyse_loop els a)))
      by (vm_compute; reflexivity).
    split; [vm_compute; reflexivity|].
    exact (production_loop_stops_only_on_base_exceptions els a (Raise stop) _
             eq_refl Hloop).
Defined.

(** A blacklist that names "ocr" and two one-letter components, "x" and
    U+00E9 (two bytes, one code point): only "ocr" is left out. *)
Example one_letter_names_are_not_blacklisted :
  let rows := [["ocr"]; ["x"]; [Commands.e_acute]] in
  Commands.len Commands.e_acute = 1 /\
  String.length Commands.e_acute = 2 /\
  Commands.build_blacklist Commands.first_field None (Some rows)
    ["youtube"; "x"] ["ocr"; Commands.e_acute] = inr ["ocr"] /\
  Commands.included ["youtube"; "x"] ["ocr"] = ["youtube"; "x"] /\
  Commands.included ["ocr"; Commands.e_acute] ["ocr"] = [Commands.e_acute].
Proof. vm_compute. repeat split. Qed.
